(** * AutoSpotting core: event dispatch and decision engine

    A shallow embedding of [core/main.go] (package [autospotting]) and the
    properties of its entry points [EventHandler] and [ProcessCronEvent].

    Go strings are byte strings ([string]); a Go pointer that the code tests
    against [nil] or dereferences is an [option]; a Go [(T, error)] result
    is a pair whose second component is an [option error]; a function that
    logs, calls out of the file or can panic is a computation in the monad
    [M], which threads the [AutoSpotting] value, the world outside the
    process and the trace of what the run did.

    What [core/main.go] calls and does not define (the JSON decoder, the
    AWS connection, the methods of [region] and [instance] declared in other
    files of the package) is taken as a parameter, in the classes
    [Elsewhere] and [Collaborators].  [Init] is taken to have run: the
    loggers and [a.config] are set.  [Init] itself and the logging set-up
    are not modelled. *)

From Stdlib Require Import String Ascii List Bool Arith Lia.
Import ListNotations.
Open Scope string_scope.

Set Implicit Arguments.

(** ** Go values used by the file *)

Module Go.

(** The line feed written ["\n"] in Go string literals. *)
Definition nl : string := String (ascii_of_nat 10) EmptyString.

(** The [error] interface, observed through its [Error()] method. *)
Record error : Type := errors_New { Error : string }.

(** [fmt.Sprintf] for the only verb the file uses, [%s] with string
  operands. *)
Fixpoint Sprintf (format : string) (args : list string) : string :=
  match format with
  | EmptyString => EmptyString
  | String "%"%char (String "s"%char rest) =>
    match args with
    | a :: args' => a ++ Sprintf rest args'
    | [] => "%!s(MISSING)" ++ Sprintf rest []
    end
  | String c rest => String c (Sprintf rest args)
  end.

(** [fmt.Errorf] with the same restriction. *)
Definition fmt_Errorf (format : string) (args : list string) : error :=
  errors_New (Sprintf format args).

(** [fmt.Sprintln]: operands separated by one space, line feed appended. *)
Fixpoint join_operands (args : list string) : string :=
  match args with
  | [] => EmptyString
  | [a] => a
  | a :: rest => a ++ " " ++ join_operands rest
  end.

Definition Sprintln (args : list string) : string := join_operands args ++ nl.

(** [len(s)] of a string: its number of bytes. *)
Definition len (s : string) : nat := String.length s.

(** The table [asciiSpace] of package [strings]. *)
Definition asciiSpace (c : ascii) : bool :=
  let n := nat_of_ascii c in
  ((n =? 9) || (n =? 10) || (n =? 11) || (n =? 12) || (n =? 13) || (n =? 32))%nat.

(** [c >= utf8.RuneSelf]: the byte starts or continues a multi-byte rune. *)
Definition nonASCII (c : ascii) : bool := (128 <=? nat_of_ascii c)%nat.

Definition string_of_rev (r : list ascii) : string :=
  string_of_list_ascii (rev r).

Section TrimSpace.

(** The Unicode-aware slow paths [TrimFunc(s, unicode.IsSpace)] and
    [TrimRightFunc(s, unicode.IsSpace)], which [strings.TrimSpace] only
    enters on meeting a byte outside ASCII. *)
Variable TrimFunc_IsSpace : string -> string.
Variable TrimRightFunc_IsSpace : string -> string.

(** Second loop of [strings.TrimSpace], over the bytes read from the
    end: [r] is [s[start:stop]] reversed. *)
Fixpoint TrimSpace_stop (r : list ascii) : string :=
  match r with
  | [] => EmptyString
  | c :: r' =>
      if nonASCII c then TrimRightFunc_IsSpace (string_of_rev r)
      else if asciiSpace c then TrimSpace_stop r'
      else string_of_rev r
  end.

(** First loop of [strings.TrimSpace], then the second on what is left. *)
Fixpoint TrimSpace (s : string) : string :=
  match s with
  | EmptyString => EmptyString
  | String c rest =>
      if nonASCII c then TrimFunc_IsSpace s
      else if asciiSpace c then TrimSpace rest
      else TrimSpace_stop (rev (list_ascii_of_string s))
  end.

End TrimSpace.

(** Every byte of [s] is ASCII white space. *)
Fixpoint all_asciiSpace (s : string) : bool :=
  match s with
  | EmptyString => true
  | String c rest => asciiSpace c && all_asciiSpace rest
  end.

(** No byte of [s] is outside ASCII. *)
Fixpoint isASCII (s : string) : bool :=
  match s with
  | EmptyString => true
  | String c rest => negb (nonASCII c) && isASCII rest
  end.

End Go.

Import Go.

(** ** Configuration *)

(** The fields of [Config] that [core/main.go] reads or writes. *)
Record Config : Type := mkConfig {
  MainRegion : string;
  Regions : string;
  TagFilteringMode : string;
  FilterByTags : string;
  TerminationNotificationAction : string
}.

Definition set_TagFilteringMode (v : string) (cfg : Config) : Config :=
  {| MainRegion := MainRegion cfg;
     Regions := Regions cfg;
     TagFilteringMode := v;
     FilterByTags := FilterByTags cfg;
     TerminationNotificationAction := TerminationNotificationAction cfg |}.

Definition set_FilterByTags (v : string) (cfg : Config) : Config :=
  {| MainRegion := MainRegion cfg;
     Regions := Regions cfg;
     TagFilteringMode := TagFilteringMode cfg;
     FilterByTags := v;
     TerminationNotificationAction := TerminationNotificationAction cfg |}.


(** ** Types of the libraries the file imports *)

(** [encoding/json]. *)
Module json.

(** [json.RawMessage], a byte slice. *)
Abbreviation RawMessage := string.

(** What a call [json.Unmarshal(data, &v)] on a zero [v] leaves: the decoded
    value, or the error returned.  The source never reads [v] after an
    error. *)
Inductive decoded (A : Type) : Type :=
| Decoded (v : A)
| Failed (err : error).

Arguments Failed {A} err.

End json.

(** [github.com/aws/aws-lambda-go/events], the fields that are read. *)
Module events.

Record SNSEntity : Type := { Message : string }.

Record SNSEventRecord : Type := { SNS : SNSEntity }.

(** [Records] is a slice: [None] is the nil slice, [Some []] a slice that is
    not nil and has no element. *)
Record SNSEvent : Type := { Records : option (list SNSEventRecord) }.

Record CloudWatchEvent : Type := {
  DetailType : string;
  Region : string;
  Detail : json.RawMessage
}.

End events.

(** [github.com/aws/aws-sdk-go/service/ec2], the fields that are read. *)
Module ec2.

Record Region : Type := { RegionName : option string }.

Inductive DescribeRegionsInput : Type := DescribeRegionsInput_zero.

Record DescribeRegionsOutput : Type := { Regions : list (option Region) }.

Record InstanceState : Type := { Name : option string }.

End ec2.

(** ** The rest of the package and the outside world *)

(** Types whose declarations are in other files of the package or in the
    AWS SDK, and the state of everything outside the process. *)
Class Elsewhere : Type := {
  (** the AWS account and whatever else the calls out of the process reach *)
  World : Type;
  (** the fields of [region] other than [name] and [conf] *)
  regionFields : Type;
  (** their zero values, as a struct literal leaves them *)
  regionFields_zero : regionFields;
  (** the fields of [instance] that [core/main.go] does not read *)
  instanceFields : Type;
  (** the value [newSpotTermination] returns *)
  SpotTermination : Type
}.

Section Types.

Context {X : Elsewhere}.

(** A call out of the process: an answer and the world it leaves. *)
Definition IO (A : Type) : Type := World -> A * World.

(** [region].  [conf] is a pointer to the one [Config] of the process; no
    statement of the file writes that [Config] after a [region] is built,
    so the field holds the value it points to. *)
Record region : Type := mkRegion {
  name : string;
  conf : Config;
  fields : regionFields
}.

(** [instance], which embeds [*ec2.Instance]: [InstanceId] and [State] are
    pointers there, and so is [State.Name]. *)
Record instance : Type := mkInstance {
  inst_region : region;
  InstanceId : option string;
  State : option ec2.InstanceState;
  inst_fields : instanceFields
}.

(** [ec2iface.EC2API], the one method that is called. *)
Record EC2API : Type := {
  DescribeRegions :
    ec2.DescribeRegionsInput -> IO (option ec2.DescribeRegionsOutput * option error)
}.

(** [AutoSpotting].  [config] holds the [Config] the pointer refers to;
    [hourlySavings] and [savingsMutex] are not touched by this file. *)
Record AutoSpotting : Type := mkAutoSpotting {
  config : Config;
  mainEC2Conn : EC2API
}.

Definition set_config (cfg : Config) (a : AutoSpotting) : AutoSpotting :=
  {| config := cfg; mainEC2Conn := mainEC2Conn a |}.

(** The three log sinks: the package variables [logger] and [debug], and
    the standard logger behind [log.Println]. *)
Inductive Logger : Type := logger | debug | stdlog.

Inductive Target : Type := SNSEvent_target | CloudWatchEvent_target.

(** What a run does that can be observed from outside it, in order. *)
Inductive Event : Type :=
| Log (l : Logger) (line : string)
| Unmarshal (data : json.RawMessage) (into : Target)
| Call_DescribeRegions (input : ec2.DescribeRegionsInput)
| Go_regionWorker (r : region)
| Call_processRegion (r : region)
| Call_newSpotTermination (regionName : string)
| Call_executeAction (instanceID : string) (action : string)
| Call_connect (regionName : string)
| Call_setupAsgFilters (r : region)
| Call_scanForEnabledAutoScalingGroups (r : region)
| Call_determineInstanceTypeInformation (r : region)
| Call_scanInstance (r : region) (instanceID : string)
| Call_launchSpotReplacement (i : instance)
| Call_swapWithGroupMember (i : instance).

End Types.

(** The functions [core/main.go] calls and does not define. *)
Class Collaborators {X : Elsewhere} : Type := {
  (** [json.Unmarshal] into an [events.SNSEvent] *)
  Unmarshal_SNSEvent : json.RawMessage -> json.decoded events.SNSEvent;
  (** [json.Unmarshal] into an [events.CloudWatchEvent] *)
  Unmarshal_CloudWatchEvent : json.RawMessage -> json.decoded events.CloudWatchEvent;
  (** [strings.TrimFunc(s, unicode.IsSpace)] *)
  TrimFunc_IsSpace : string -> string;
  (** [strings.TrimRightFunc(s, unicode.IsSpace)] *)
  TrimRightFunc_IsSpace : string -> string;
  (** how [Println] prints a [*ec2.DescribeRegionsOutput] that is not nil *)
  DescribeRegionsOutput_String : ec2.DescribeRegionsOutput -> string;
  (** [(r *region) enabled() bool] *)
  enabled : region -> bool;
  (** [(r *region) processRegion()] *)
  processRegion : region -> IO unit;
  (** [getInstanceIDDueForTermination(event)], a [*string] and an [error] *)
  getInstanceIDDueForTermination :
    events.CloudWatchEvent -> option string * option error;
  (** [newSpotTermination(region)] *)
  newSpotTermination : string -> IO SpotTermination;
  (** [executeAction(instanceID, action)], whose result is dropped *)
  executeAction : SpotTermination -> string -> string -> IO unit;
  (** [parseEventData(event)]: [instanceID *string], [state *string], [err error] *)
  parseEventData :
    events.CloudWatchEvent -> option string * option string * option error;
  (** [(c *connections) connect(region)] on [r.services] *)
  connect : string -> region -> IO region;
  (** [(r *region) setupAsgFilters()] *)
  setupAsgFilters : region -> IO region;
  (** [(r *region) scanForEnabledAutoScalingGroups()] *)
  scanForEnabledAutoScalingGroups : region -> IO region;
  (** [(r *region) determineInstanceTypeInformation(cfg)] *)
  determineInstanceTypeInformation : Config -> region -> IO region;
  (** [(r *region) scanInstance(instanceID) error] *)
  scanInstance : region -> string -> IO (region * option error);
  (** [r.instances.get(id)], nil when the instance is not there *)
  instances_get : region -> string -> option instance;
  (** [(i *instance) belongsToEnabledASG() bool] *)
  belongsToEnabledASG : instance -> bool;
  (** [(i *instance) shouldBeReplacedWithSpot() bool] *)
  shouldBeReplacedWithSpot : instance -> bool;
  (** [(i *instance) isUnattachedSpotInstanceLaunchedForAnEnabledASG() bool] *)
  isUnattachedSpotInstanceLaunchedForAnEnabledASG : instance -> bool;
  (** [(i *instance) launchSpotReplacement()], first result dropped *)
  launchSpotReplacement : instance -> IO (option error);
  (** [(i *instance) swapWithGroupMember()], first result dropped *)
  swapWithGroupMember : instance -> IO (option error)
}.

(** ** Computations *)

(** A statement either completes with a value or panics. *)
Inductive Outcome (A : Type) : Type :=
| Returned (v : A)
| Panicked (reason : string).

Arguments Panicked {A} reason.

Section Monad.

Context {X : Elsewhere}.

(** The process: the [AutoSpotting] value behind the receiver [a], the
    world outside, and what has been observed so far, oldest first. *)
Record Process : Type := mkProcess {
  self : AutoSpotting;
  world : World;
  trace : list Event
}.

Definition M (A : Type) : Type := Process -> Outcome A * Process.

Definition ret {A : Type} (v : A) : M A := fun p => (Returned v, p).

Definition bind {A B : Type} (m : M A) (k : A -> M B) : M B :=
  fun p =>
    match m p with
    | (Returned v, p') => k v p'
    | (Panicked reason, p') => (Panicked reason, p')
    end.

Definition panic {A : Type} (reason : string) : M A :=
  fun p => (Panicked reason, p).

(** Appends one observation to the trace. *)
Definition emit (e : Event) : M unit :=
  fun p => (Returned tt,
            {| self := self p; world := world p; trace := trace p ++ [e] |}).

(** A call out of the process, observed as [e]. *)
Definition extern {A : Type} (e : Event) (f : IO A) : M A :=
  fun p =>
    let (v, w) := f (world p) in
    (Returned v, {| self := self p; world := w; trace := trace p ++ [e] |}).

(** Reads [a.config]. *)
Definition get_config : M Config := fun p => (Returned (config (self p)), p).

(** Writes through the pointer [a.config]. *)
Definition put_config (cfg : Config) : M unit :=
  fun p => (Returned tt,
            {| self := set_config cfg (self p); world := world p; trace := trace p |}).

Definition get_mainEC2Conn : M EC2API :=
  fun p => (Returned (mainEC2Conn (self p)), p).

Definition nil_dereference : string :=
  "runtime error: invalid memory address or nil pointer dereference".

Definition index_out_of_range : string :=
  "runtime error: index out of range".

(** [*ptr]. *)
Definition deref {A : Type} (ptr : option A) : M A :=
  match ptr with
  | Some v => ret v
  | None => panic nil_dereference
  end.

(** [s[0]] on a slice that is not nil. *)
Definition index0 {A : Type} (s : list A) : M A :=
  match s with
  | v :: _ => ret v
  | [] => panic index_out_of_range
  end.

Definition Println (l : Logger) (operands : list string) : M unit :=
  emit (Log l (Sprintln operands)).

Definition Printf (l : Logger) (format : string) (operands : list string) : M unit :=
  emit (Log l (Sprintf format operands)).

End Monad.

Notation "x <- m ;; k" := (bind m (fun x => k))
  (at level 61, m at next level, right associativity).
Notation "' pat <- m ;; k" := (bind m (fun x => match x with pat => k end))
  (at level 61, pat pattern, m at next level, right associativity).
Notation "m ;; k" := (bind m (fun _ => k))
  (at level 61, right associativity).

(** ** [core/main.go] *)

Section Main.

Context {X : Elsewhere} {C : Collaborators}.

(** [strings.TrimSpace]. *)
Definition strings_TrimSpace : string -> string :=
  TrimSpace TrimFunc_IsSpace TrimRightFunc_IsSpace.

(** [func (cfg *Config) addDefaultFilteringMode()], on the [Config] behind
    [a.config]. *)
Definition addDefaultFilteringMode : M unit :=
  cfg <- get_config ;;
  if negb (TagFilteringMode cfg =? "opt-out") then
    Printf debug
      ("Configured filtering mode: '%s', considering it as 'opt-in'(default)" ++ nl)
      [TagFilteringMode cfg] ;;
    put_config (set_TagFilteringMode "opt-in" cfg)
  else
    Println debug ["Configured filtering mode: 'opt-out'"].

(** [func (cfg *Config) addDefaultFilter()]. *)
Definition addDefaultFilter : M unit :=
  cfg <- get_config ;;
  if (len (strings_TrimSpace (FilterByTags cfg)) =? 0)%nat then
    if TagFilteringMode cfg =? "opt-out" then
      put_config (set_FilterByTags "spot-enabled=false" cfg)
    else
      put_config (set_FilterByTags "spot-enabled=true" cfg)
  else
    ret tt.

(** The body of the goroutine that [processRegions] starts for [r]. *)
Definition regionWorker (r : region) : M unit :=
  if enabled r then
    Printf logger ("Enabled to run in %s, processing region." ++ nl) [name r] ;;
    extern (Call_processRegion r) (processRegion r)
  else
    Println debug ["Not enabled to run in"; name r] ;;
    Println debug ["List of enabled regions:"; Regions (conf r)].

(** [func (a *AutoSpotting) processRegions(regions []string)].  The
    goroutines are run one after the other, each to its end, in the order
    they are started: one of the schedules the wait group allows. *)
Fixpoint processRegions (regions : list string) : M unit :=
  match regions with
  | [] => ret tt
  | r :: rest =>
      cfg <- get_config ;;
      let r := {| name := r; conf := cfg; fields := regionFields_zero |} in
      emit (Go_regionWorker r) ;;
      regionWorker r ;;
      processRegions rest
  end.

(** The loop of [getRegions] over [resp.Regions]. *)
Fixpoint getRegions_range (regions : list (option ec2.Region)) (output : list string)
  : M (list string) :=
  match regions with
  | [] => ret output
  | r :: rest =>
      match r with
      | Some {| ec2.RegionName := Some regionName |} =>
          Println debug ["Found region"; regionName] ;;
          getRegions_range rest (output ++ [regionName])
      | _ => getRegions_range rest output
      end
  end.

(** [func (a *AutoSpotting) getRegions() ([]string, error)]. *)
Definition getRegions : M (list string * option error) :=
  Println logger ["Scanning for available AWS regions"] ;;
  conn <- get_mainEC2Conn ;;
  '(resp, err) <- extern (Call_DescribeRegions ec2.DescribeRegionsInput_zero)
                         (DescribeRegions conn ec2.DescribeRegionsInput_zero) ;;
  match err with
  | Some e =>
      Println logger [Error e] ;;
      ret ([], Some e)
  | None =>
      Println debug [match resp with
                     | Some out => DescribeRegionsOutput_String out
                     | None => "<nil>"
                     end] ;;
      out <- deref resp ;;
      output <- getRegions_range (ec2.Regions out) [] ;;
      ret (output, None)
  end.

(** [func (a *AutoSpotting) ProcessCronEvent()]. *)
Definition ProcessCronEvent : M unit :=
  addDefaultFilteringMode ;;
  addDefaultFilter ;;
  '(allRegions, err) <- getRegions ;;
  match err with
  | Some e => Println logger [Error e]
  | None => processRegions allRegions
  end.

(** Lines 277-298 of [handleNewInstanceLaunch]: the [running] branch and the
    final [return nil]. *)
Definition handleNewInstanceLaunch_running (i : instance) (state : string)
  : M (option error) :=
  if state =? "running" then
    id <- deref (InstanceId i) ;;
    Printf logger
      ("%s Found instance %s in running state, checking if it's a spot instance " ++
       "that should be attached to any ASG") [name (inst_region i); id] ;;
    let unattached := isUnattachedSpotInstanceLaunchedForAnEnabledASG i in
    if negb unattached then
      id <- deref (InstanceId i) ;;
      Printf logger "%s Found instance %s is already attached to an ASG, skipping it"
        [name (inst_region i); id] ;;
      ret None
    else
      id <- deref (InstanceId i) ;;
      Printf logger
        ("%s Found instance %s is not yet attached to its ASG, " ++
         "attempting to swap it against a running on-demand instance")
        [name (inst_region i); id] ;;
      err <- extern (Call_swapWithGroupMember i) (swapWithGroupMember i) ;;
      match err with
      | Some e =>
          id <- deref (InstanceId i) ;;
          Printf logger "%s, couldn't perform spot replacement of %s "
            [name (inst_region i); id] ;;
          ret (Some e)
      | None => ret None
      end
  else
    ret None.

(** Lines 260-298 of [handleNewInstanceLaunch]: what is done with the
    instance once [r.instances.get] has found it. *)
Definition handleNewInstanceLaunch_found (i : instance) (state : string)
  : M (option error) :=
  id <- deref (InstanceId i) ;;
  st <- deref (State i) ;;
  stateName <- deref (ec2.Name st) ;;
  Printf logger "%s Found instance %s in state %s"
    [name (inst_region i); id; stateName] ;;
  if (state =? "pending") && belongsToEnabledASG i && shouldBeReplacedWithSpot i then
    id <- deref (InstanceId i) ;;
    Printf logger
      ("%s instance %s is in pending state, belongs to an enabled ASG " ++
       "and should be replaced with spot, attempting to launch spot replacement")
      [name (inst_region i); id] ;;
    err <- extern (Call_launchSpotReplacement i) (launchSpotReplacement i) ;;
    match err with
    | Some e =>
        id <- deref (InstanceId i) ;;
        Printf logger "%s Couldn't launch spot replacement for %s"
          [name (inst_region i); id] ;;
        ret (Some e)
    | None => handleNewInstanceLaunch_running i state
    end
  else
    id <- deref (InstanceId i) ;;
    st <- deref (State i) ;;
    stateName <- deref (ec2.Name st) ;;
    Printf logger
      ("%s skipping instance %s: either not in pending state (%s), doesn't " ++
       "belong to an enabled ASG or should not be replaced with spot, ")
      [name (inst_region i); id; stateName] ;;
    handleNewInstanceLaunch_running i state.

(** Lines 241-248 of [handleNewInstanceLaunch]: the region is connected and
    scanned, then the one instance. *)
Definition handleNewInstanceLaunch_scan (regionName : string) (r : region)
  (instanceID : string) : M (region * option error) :=
  r <- extern (Call_connect regionName) (connect regionName r) ;;
  r <- extern (Call_setupAsgFilters r) (setupAsgFilters r) ;;
  r <- extern (Call_scanForEnabledAutoScalingGroups r)
              (scanForEnabledAutoScalingGroups r) ;;
  Println logger ["Scanning full instance information in"; name r] ;;
  r <- extern (Call_determineInstanceTypeInformation r)
              (determineInstanceTypeInformation (conf r) r) ;;
  extern (Call_scanInstance r instanceID) (scanInstance r instanceID).

(** [func (a *AutoSpotting) handleNewInstanceLaunch(regionName string,
    instanceID string, state string) error]. *)
Definition handleNewInstanceLaunch (regionName instanceID state : string)
  : M (option error) :=
  cfg <- get_config ;;
  let r := {| name := regionName; conf := cfg; fields := regionFields_zero |} in
  if negb (enabled r) then
    ret (Some (fmt_Errorf "region %s is not enabled" [regionName]))
  else
    '(r, err) <- handleNewInstanceLaunch_scan regionName r instanceID ;;
    match err with
    | Some e =>
        Printf logger "%s Couldn't scan instance %s: %s"
          [regionName; instanceID; Error e] ;;
        ret (Some e)
    | None =>
        match instances_get r instanceID with
        | None =>
            Printf logger "%s Instance %s is missing, skipping..."
              [regionName; instanceID] ;;
            ret (Some (errors_New "instance missing"))
        | Some i => handleNewInstanceLaunch_found i state
        end
    end.

(** Lines 205-231 of [EventHandler]: the branches on [DetailType]. *)
Definition EventHandler_dispatch (cloudwatchEvent : events.CloudWatchEvent) : M unit :=
  if events.DetailType cloudwatchEvent =? "EC2 Spot Instance Interruption Warning" then
    Println stdlog ["Triggered by"; events.DetailType cloudwatchEvent] ;;
    let '(instanceID, err) := getInstanceIDDueForTermination cloudwatchEvent in
    match err with
    | Some e =>
        Println stdlog ["Could't get instance ID of terminating spot instance"; Error e]
    | None =>
        match instanceID with
        | Some id =>
            spotTermination <-
              extern (Call_newSpotTermination (events.Region cloudwatchEvent))
                     (newSpotTermination (events.Region cloudwatchEvent)) ;;
            cfg <- get_config ;;
            extern (Call_executeAction id (TerminationNotificationAction cfg))
                   (executeAction spotTermination id (TerminationNotificationAction cfg))
        | None => ret tt
        end
    end
  else if events.DetailType cloudwatchEvent =? "EC2 Instance State-change Notification" then
    Println stdlog ["Triggered by"; events.DetailType cloudwatchEvent] ;;
    let '(instanceID, state, err) := parseEventData cloudwatchEvent in
    match err with
    | Some e =>
        Println stdlog ["Could't get instance ID of newly launched instance"; Error e]
    | None =>
        match instanceID with
        | Some id =>
            st <- deref state ;;
            _ <- handleNewInstanceLaunch (events.Region cloudwatchEvent) id st ;;
            ret tt
        | None => ret tt
        end
    end
  else
    ProcessCronEvent.

(** Lines 199-231 of [EventHandler]: the second [json.Unmarshal] and what
    follows it. *)
Definition EventHandler_parse (parseEvent : json.RawMessage) : M unit :=
  emit (Unmarshal parseEvent CloudWatchEvent_target) ;;
  match Unmarshal_CloudWatchEvent parseEvent with
  | json.Failed err => Println stdlog [Error err]
  | json.Decoded cloudwatchEvent => EventHandler_dispatch cloudwatchEvent
  end.

(** [func (a *AutoSpotting) EventHandler(event *json.RawMessage)]. *)
Definition EventHandler (event : option json.RawMessage) : M unit :=
  match event with
  | None =>
      Println logger
        ["Missing event data, running as if triggered from a cron event..."] ;;
      ProcessCronEvent
  | Some ev =>
      Println stdlog ["Received event: " ++ nl; ev] ;;
      let parseEvent := ev in
      emit (Unmarshal parseEvent SNSEvent_target) ;;
      match Unmarshal_SNSEvent parseEvent with
      | json.Failed err => Println stdlog [Error err]
      | json.Decoded snsEvent =>
          parseEvent <-
            match events.Records snsEvent with
            | Some records =>
                snsRecord <- index0 records ;;
                ret (events.Message (events.SNS snsRecord))
            | None => ret parseEvent
            end ;;
          EventHandler_parse parseEvent
      end
  end.

End Main.

(** ** What is read off a trace *)

Section Observations.

Context {X : Elsewhere}.

(** A payload was handed to [json.Unmarshal]. *)
Definition is_parse (e : Event) : bool :=
  match e with
  | Unmarshal _ _ => true
  | _ => false
  end.

(** The regions were asked for: the first request of a periodic scan. *)
Definition is_enumeration (e : Event) : bool :=
  match e with
  | Call_DescribeRegions _ => true
  | _ => false
  end.

(** Something was started or requested for one region or one instance:
    every observation that is neither a log line, nor a parse, nor the
    enumeration of the regions. *)
Definition is_region_effect (e : Event) : bool :=
  match e with
  | Log _ _ | Unmarshal _ _ | Call_DescribeRegions _ => false
  | _ => true
  end.

(** The actions of the decision engine. *)
Inductive Action : Type :=
| LaunchSpotReplacement (i : instance)
| SwapWithGroupMember (i : instance).

(** The actions a trace holds, oldest first; the empty list is [NoAction]. *)
Fixpoint actions (t : list Event) : list Action :=
  match t with
  | [] => []
  | Call_launchSpotReplacement i :: rest => LaunchSpotReplacement i :: actions rest
  | Call_swapWithGroupMember i :: rest => SwapWithGroupMember i :: actions rest
  | _ :: rest => actions rest
  end.

(** [p] after the observations [t]. *)
Definition observed (t : list Event) (p : Process) : Process :=
  {| self := self p; world := world p; trace := trace p ++ t |}.

(** The working payload of [EventHandler] once the envelope is decoded: the
    payload itself when there is no record list, the message of the first
    record when there is one; nothing when the list is there and empty. *)
Definition unwrapped (payload : json.RawMessage) (snsEvent : events.SNSEvent)
  : option json.RawMessage :=
  match events.Records snsEvent with
  | None => Some payload
  | Some (snsRecord :: _) => Some (events.Message (events.SNS snsRecord))
  | Some [] => None
  end.

(** What [EventHandler] logs and parses on the way to a branch on
    [DetailType]. *)
Definition classification (payload inner : json.RawMessage) : list Event :=
  [ Log stdlog (Sprintln ["Received event: " ++ nl; payload]);
    Unmarshal payload SNSEvent_target;
    Unmarshal inner CloudWatchEvent_target ].

Definition triggered_by (ev : events.CloudWatchEvent) : Event :=
  Log stdlog (Sprintln ["Triggered by"; events.DetailType ev]).

(** [EventHandler] on [event] comes down to a periodic scan. *)
Definition runs_periodic_scan {C : Collaborators}
  (event : option json.RawMessage) (p : Process) : Prop :=
  exists t, EventHandler event p = ProcessCronEvent (observed t p).

(** The caller of [EventHandler] can read off what it is returned, by
    [report], the error of the single-event path, nil or not. *)
Definition single_event_errors_reach_caller {C : Collaborators}
  (report : Outcome unit -> option error) : Prop :=
  forall payload snsEvent inner ev instanceID state p result,
    Unmarshal_SNSEvent payload = json.Decoded snsEvent ->
    unwrapped payload snsEvent = Some inner ->
    Unmarshal_CloudWatchEvent inner = json.Decoded ev ->
    events.DetailType ev = "EC2 Instance State-change Notification" ->
    parseEventData ev = (Some instanceID, Some state, None) ->
    fst (handleNewInstanceLaunch (events.Region ev) instanceID state
           (observed (classification payload inner ++ [triggered_by ev]) p))
    = Returned result ->
    report (fst (EventHandler (Some payload) p)) = result.

(** [m] only extends the trace, and only with observations in [ok]. *)
Definition emits_only (ok : Event -> bool) {A : Type} (m : M A) : Prop :=
  forall p, exists t, trace (snd (m p)) = (trace p ++ t)%list /\ forallb ok t = true.

(** The code's test for a blank filter expression. *)
Definition blank {C : Collaborators} (s : string) : Prop :=
  len (strings_TrimSpace s) = 0.

(** [C] with another decoder of notification envelopes. *)
Definition with_Unmarshal_SNSEvent {C : Collaborators}
  (decode : json.RawMessage -> json.decoded events.SNSEvent) : Collaborators :=
  {| Unmarshal_SNSEvent := decode;
     Unmarshal_CloudWatchEvent := Unmarshal_CloudWatchEvent;
     TrimFunc_IsSpace := TrimFunc_IsSpace;
     TrimRightFunc_IsSpace := TrimRightFunc_IsSpace;
     DescribeRegionsOutput_String := DescribeRegionsOutput_String;
     enabled := enabled;
     processRegion := processRegion;
     getInstanceIDDueForTermination := getInstanceIDDueForTermination;
     newSpotTermination := newSpotTermination;
     executeAction := executeAction;
     parseEventData := parseEventData;
     connect := connect;
     setupAsgFilters := setupAsgFilters;
     scanForEnabledAutoScalingGroups := scanForEnabledAutoScalingGroups;
     determineInstanceTypeInformation := determineInstanceTypeInformation;
     scanInstance := scanInstance;
     instances_get := instances_get;
     belongsToEnabledASG := belongsToEnabledASG;
     shouldBeReplacedWithSpot := shouldBeReplacedWithSpot;
     isUnattachedSpotInstanceLaunchedForAnEnabledASG :=
       isUnattachedSpotInstanceLaunchedForAnEnabledASG;
     launchSpotReplacement := launchSpotReplacement;
     swapWithGroupMember := swapWithGroupMember |}.

End Observations.

(** ** A test double

    One account with two regions and two instances, and canned answers for
    the calls out of [core/main.go], in the manner of the package's mocks.
    The properties below are all proved for every [Elsewhere] and
    [Collaborators]; the double only serves to run the code on concrete
    events. *)

Module Double.

(** The double quote of JSON texts. *)
Definition dq : string := String (ascii_of_nat 34) EmptyString.

Definition q (s : string) : string := dq ++ s ++ dq.

(** The world is the number of requests the account has received. *)
Definition elsewhere : Elsewhere :=
  {| World := nat;
     regionFields := list string;
     regionFields_zero := [];
     instanceFields := unit;
     SpotTermination := string |}.

(** [{"instance-id":"i-0456","state":"pending"}] *)
Definition detail_pending : string :=
  "{" ++ q "instance-id" ++ ":" ++ q "i-0456" ++ "," ++ q "state" ++ ":" ++ q "pending" ++ "}".

(** [{"instance-id":"i-0789","state":"running"}] *)
Definition detail_running : string :=
  "{" ++ q "instance-id" ++ ":" ++ q "i-0789" ++ "," ++ q "state" ++ ":" ++ q "running" ++ "}".

(** [{"instance-id":"i-0123","instance-action":"terminate"}] *)
Definition detail_interruption : string :=
  "{" ++ q "instance-id" ++ ":" ++ q "i-0123" ++ "," ++ q "instance-action" ++ ":" ++
  q "terminate" ++ "}".

(** A lifecycle event as the event bus delivers it. *)
Definition lifecycle (detailType region detail : string) : string :=
  "{" ++ q "detail-type" ++ ":" ++ q detailType ++ "," ++ q "region" ++ ":" ++ q region ++
  "," ++ q "detail" ++ ":" ++ detail ++ "}".

Definition state_change_pending : string :=
  lifecycle "EC2 Instance State-change Notification" "us-east-1" detail_pending.

Definition state_change_running : string :=
  lifecycle "EC2 Instance State-change Notification" "us-east-1" detail_running.

Definition interruption : string :=
  lifecycle "EC2 Spot Instance Interruption Warning" "us-east-1" detail_interruption.

Definition scheduled : string :=
  lifecycle "Scheduled Event" "us-east-1" "{}".

(** A text that is not JSON. *)
Definition garbage : string := "not json".

(** A JSON string literal holds its quotes and backslashes escaped. *)
Fixpoint escape (s : string) : string :=
  match s with
  | EmptyString => EmptyString
  | String c rest =>
      if ((nat_of_ascii c =? 34) || (nat_of_ascii c =? 92))%nat
      then String (ascii_of_nat 92) (String c (escape rest))
      else String c (escape rest)
  end.

(** [{"Sns":{"Message":"..."}}] *)
Definition sns_record (message : string) : string :=
  "{" ++ q "Sns" ++ ":{" ++ q "Message" ++ ":" ++ q (escape message) ++ "}}".

(** A notification envelope, [{"Records":[...]}], with one record per
    message. *)
Definition envelope (messages : list string) : string :=
  "{" ++ q "Records" ++ ":[" ++ String.concat "," (map sns_record messages) ++ "]}".

Definition envelope_no_record : string := envelope [].

(** The envelopes used below, with the messages of their records. *)
Definition envelopes : list (string * list string) :=
  map (fun messages => (envelope messages, messages))
    [ [interruption];
      [scheduled; state_change_pending];
      [scheduled; interruption];
      [state_change_pending; interruption];
      [garbage];
      [] ].

Fixpoint lookup {A : Type} (key : string) (table : list (string * A)) : option A :=
  match table with
  | [] => None
  | (k, v) :: rest => if key =? k then Some v else lookup key rest
  end.

Definition record_of (message : string) : events.SNSEventRecord :=
  {| events.SNS := {| events.Message := message |} |}.

Definition syntax_error : error := errors_New "invalid character 'o' in literal null (expecting 'u')".

(** The lifecycle events the double can decode. *)
Definition lifecycle_events : list (string * events.CloudWatchEvent) :=
  [ (state_change_pending,
     {| events.DetailType := "EC2 Instance State-change Notification";
        events.Region := "us-east-1"; events.Detail := detail_pending |});
    (state_change_running,
     {| events.DetailType := "EC2 Instance State-change Notification";
        events.Region := "us-east-1"; events.Detail := detail_running |});
    (interruption,
     {| events.DetailType := "EC2 Spot Instance Interruption Warning";
        events.Region := "us-east-1"; events.Detail := detail_interruption |});
    (scheduled,
     {| events.DetailType := "Scheduled Event";
        events.Region := "us-east-1"; events.Detail := "{}" |}) ].

Definition decode_SNSEvent (data : json.RawMessage) : json.decoded events.SNSEvent :=
  match lookup data envelopes with
  | Some messages => json.Decoded {| events.Records := Some (map record_of messages) |}
  | None =>
      match lookup data lifecycle_events with
      | Some _ => json.Decoded {| events.Records := None |}
      | None => json.Failed syntax_error
      end
  end.

Definition decode_CloudWatchEvent (data : json.RawMessage)
  : json.decoded events.CloudWatchEvent :=
  match lookup data lifecycle_events with
  | Some ev => json.Decoded ev
  | None => json.Failed syntax_error
  end.

Definition instance_ids : list (string * (string * string)) :=
  [ (detail_pending, ("i-0456", "pending"));
    (detail_running, ("i-0789", "running"));
    (detail_interruption, ("i-0123", "terminate")) ].

Definition known_instances : list (string * string) :=
  [ ("i-0456", "pending"); ("i-0789", "running") ].

(** An instance the account still describes and the region no longer
    holds. *)
Definition vanished : string := "i-0000".

(** The account refuses a launch or a swap past this number of requests. *)
Definition quota : nat := 100.

Definition limited (w : nat) : option error * nat :=
  if (quota <=? w)%nat then (Some (errors_New "RequestLimitExceeded"), S w)
  else (None, S w).

Definition scanned (r : @region elsewhere) (instanceID : string) : bool :=
  existsb (String.eqb instanceID) (@fields elsewhere r).

Definition has_id (id : string) (i : @instance elsewhere) : bool :=
  match @InstanceId elsewhere i with
  | Some id' => id' =? id
  | None => false
  end.

Definition collaborators : @Collaborators elsewhere :=
  {| Unmarshal_SNSEvent := decode_SNSEvent;
     Unmarshal_CloudWatchEvent := decode_CloudWatchEvent;
     (* the double is only run on ASCII text, which never takes the slow paths *)
     TrimFunc_IsSpace := fun s => s;
     TrimRightFunc_IsSpace := fun s => s;
     DescribeRegionsOutput_String := fun _ => "{ Regions: [...] }";
     enabled := fun r : @region elsewhere =>
       (Regions (conf r) =? "") || (Regions (conf r) =? name r);
     processRegion := fun _ (w : @World elsewhere) => (tt, S w);
     getInstanceIDDueForTermination := fun ev =>
       match lookup (events.Detail ev) instance_ids with
       | Some (id, _) => (Some id, None)
       | None => (None, Some (errors_New "unexpected end of JSON input"))
       end;
     newSpotTermination := fun regionName (w : @World elsewhere) => (regionName, S w);
     executeAction := fun _ _ _ (w : @World elsewhere) => (tt, S w);
     parseEventData := fun ev =>
       match lookup (events.Detail ev) instance_ids with
       | Some (id, st) => (Some id, Some st, None)
       | None => (None, None, Some (errors_New "unexpected end of JSON input"))
       end;
     connect := fun _ r (w : @World elsewhere) => (r, S w);
     setupAsgFilters := fun r (w : @World elsewhere) => (r, w);
     scanForEnabledAutoScalingGroups := fun r (w : @World elsewhere) => (r, S w);
     determineInstanceTypeInformation := fun _ r (w : @World elsewhere) => (r, w);
     scanInstance := fun (r : @region elsewhere) instanceID (w : @World elsewhere) =>
       match lookup instanceID known_instances with
       | Some _ =>
           ((@mkRegion elsewhere (name r) (conf r) (instanceID :: @fields elsewhere r), None), S w)
       | None =>
           if instanceID =? vanished then ((r, None), S w)
           else ((r, Some (errors_New "InvalidInstanceID.NotFound")), S w)
       end;
     instances_get := fun (r : @region elsewhere) instanceID =>
       if scanned r instanceID then
         Some (@mkInstance elsewhere r (Some instanceID)
                 (Some {| ec2.Name := lookup instanceID known_instances |}) tt)
       else None;
     belongsToEnabledASG := has_id "i-0456";
     shouldBeReplacedWithSpot := has_id "i-0456";
     isUnattachedSpotInstanceLaunchedForAnEnabledASG := has_id "i-0789";
     launchSpotReplacement := fun _ => limited;
     swapWithGroupMember := fun _ => limited |}.

(** A connection that lists two regions among entries without a name. *)
Definition reachable : @EC2API elsewhere :=
  {| DescribeRegions := fun _ (w : @World elsewhere) =>
       ((Some {| ec2.Regions :=
                   [ Some {| ec2.RegionName := Some "us-east-1" |};
                     None;
                     Some {| ec2.RegionName := None |};
                     Some {| ec2.RegionName := Some "eu-west-1" |} ] |},
         None), S w) |}.

(** A connection whose request fails. *)
Definition unreachable : @EC2API elsewhere :=
  {| DescribeRegions := fun _ (w : @World elsewhere) =>
       ((None, Some (errors_New "RequestError: send request failed")), S w) |}.

Definition configured (regions mode filter : string) : Config :=
  {| MainRegion := "us-east-1";
     Regions := regions;
     TagFilteringMode := mode;
     FilterByTags := filter;
     TerminationNotificationAction := "auto" |}.

(** A process that has logged nothing, in an account that has received
    [requests] requests. *)
Definition started (requests : nat) (cfg : Config) (conn : @EC2API elsewhere)
  : @Process elsewhere :=
  {| self := {| config := cfg; mainEC2Conn := conn |}; world := requests; trace := [] |}.

Definition fresh : Config -> @EC2API elsewhere -> @Process elsewhere := started 0.

(** Every region enabled, every default left to the code. *)
Definition open_config : Config := configured "" "" "".

(** Only [eu-west-1] enabled. *)
Definition closed_config : Config := configured "eu-west-1" "" "".

(** The two instances as a scan of [us-east-1] brings them. *)
Definition scanned_instance (instanceID state : string) : @instance elsewhere :=
  @mkInstance elsewhere
    (@mkRegion elsewhere "us-east-1" open_config [instanceID])
    (Some instanceID) (Some {| ec2.Name := Some state |}) tt.

Definition pending_instance : @instance elsewhere := scanned_instance "i-0456" "pending".

Definition running_instance : @instance elsewhere := scanned_instance "i-0789" "running".

End Double.

(** ** Further readings of a run *)

Section Readings.

Context {X : Elsewhere}.

(** The names [getRegions] keeps: those of the entries that are not nil and
    have a name, in the order of the answer. *)
Fixpoint region_names (regions : list (option ec2.Region)) : list string :=
  match regions with
  | [] => []
  | Some {| ec2.RegionName := Some regionName |} :: rest =>
      regionName :: region_names rest
  | _ :: rest => region_names rest
  end.

(** The line [getRegions] writes to [debug] for a name it keeps. *)
Definition found_region (regionName : string) : Event :=
  Log debug (Sprintln ["Found region"; regionName]).

(** The regions for which a worker was started, oldest first. *)
Fixpoint started_workers (t : list Event) : list region :=
  match t with
  | [] => []
  | Go_regionWorker r :: rest => r :: started_workers rest
  | _ :: rest => started_workers rest
  end.

(** The regions that were processed, oldest first. *)
Fixpoint processed_regions (t : list Event) : list region :=
  match t with
  | [] => []
  | Call_processRegion r :: rest => r :: processed_regions rest
  | _ :: rest => processed_regions rest
  end.

(** The world after the regions [rs] have been processed one after the
    other. *)
Definition processed_world {C : Collaborators} (rs : list region) (w : World) : World :=
  fold_left (fun w r => snd (processRegion r w)) rs w.

(** The region [processRegions] and [handleNewInstanceLaunch] build for a
    name. *)
Definition region_literal (cfg : Config) (regionName : string) : region :=
  {| name := regionName; conf := cfg; fields := regionFields_zero |}.

(** The process after the first two statements of [ProcessCronEvent]. *)
Definition defaulted {C : Collaborators} (p : Process) : Process :=
  snd (addDefaultFilter (snd (addDefaultFilteringMode p))).

(** A configuration the defaults have nothing to add to. *)
Definition normalised {C : Collaborators} (cfg : Config) : Prop :=
  (TagFilteringMode cfg = "opt-in" \/ TagFilteringMode cfg = "opt-out") /\
  ~ blank (FilterByTags cfg).

Definition is_log (e : Event) : bool :=
  match e with
  | Log _ _ => true
  | _ => false
  end.

(** What a trace holds besides log lines. *)
Definition calls (t : list Event) : list Event :=
  filter (fun e => negb (is_log e)) t.

(** A periodic scan was started or a region worker with it. *)
Definition is_scan (e : Event) : bool :=
  match e with
  | Call_DescribeRegions _ | Go_regionWorker _ | Call_processRegion _ => true
  | _ => false
  end.

(** [m] leaves the [AutoSpotting] value, its configuration with it, as it
    was, and only extends the trace, with observations in [ok]. *)
Definition confined (ok : Event -> bool) {A : Type} (m : M A) : Prop :=
  forall p,
    self (snd (m p)) = self p /\
    exists t, trace (snd (m p)) = (trace p ++ t)%list /\ forallb ok t = true.

(** [p] with nothing observed yet. *)
Definition from_scratch (p : Process) : Process :=
  {| self := self p; world := world p; trace := [] |}.

(** The result [r] of a run from scratch, had [t] been observed before. *)
Definition rebase {A : Type} (t : list Event) (r : Outcome A * Process)
  : Outcome A * Process :=
  (fst r,
   {| self := self (snd r); world := world (snd r); trace := t ++ trace (snd r) |}).

(** [m] does not read the trace: a run is the run from scratch, after what
    was observed before. *)
Definition trace_blind {A : Type} (m : M A) : Prop :=
  forall p, m p = rebase (trace p) (m (from_scratch p)).

(** What [EventHandler] logs and parses first of a payload. *)
Definition received (payload : json.RawMessage) : list Event :=
  [ Log stdlog (Sprintln ["Received event: " ++ nl; payload]);
    Unmarshal payload SNSEvent_target ].

(** Two runs that differ in their traces at most. *)
Definition same_but_trace {A : Type} (r1 r2 : Outcome A * Process) : Prop :=
  fst r1 = fst r2 /\ self (snd r1) = self (snd r2) /\ world (snd r1) = world (snd r2).

End Readings.

(** ** Further canned answers *)

Module Fixtures.

(** A connection that answers with neither an output nor an error. *)
Definition silent : @EC2API Double.elsewhere :=
  {| DescribeRegions := fun _ (w : @World Double.elsewhere) => ((None, None), S w) |}.


(** A configuration the defaults have nothing to add to. *)
Definition settled_config : Config := Double.configured "" "opt-in" "team=a".

(** The collaborators of the double, with another reader of the data of a
    state-change notification. *)
Definition reading
  (read : events.CloudWatchEvent -> option string * option string * option error)
  : @Collaborators Double.elsewhere :=
  let C := Double.collaborators in
  {| Unmarshal_SNSEvent := @Unmarshal_SNSEvent _ C;
     Unmarshal_CloudWatchEvent := @Unmarshal_CloudWatchEvent _ C;
     TrimFunc_IsSpace := @TrimFunc_IsSpace _ C;
     TrimRightFunc_IsSpace := @TrimRightFunc_IsSpace _ C;
     DescribeRegionsOutput_String := @DescribeRegionsOutput_String _ C;
     enabled := @enabled _ C;
     processRegion := @processRegion _ C;
     getInstanceIDDueForTermination := @getInstanceIDDueForTermination _ C;
     newSpotTermination := @newSpotTermination _ C;
     executeAction := @executeAction _ C;
     parseEventData := read;
     connect := @connect _ C;
     setupAsgFilters := @setupAsgFilters _ C;
     scanForEnabledAutoScalingGroups := @scanForEnabledAutoScalingGroups _ C;
     determineInstanceTypeInformation := @determineInstanceTypeInformation _ C;
     scanInstance := @scanInstance _ C;
     instances_get := @instances_get _ C;
     belongsToEnabledASG := @belongsToEnabledASG _ C;
     shouldBeReplacedWithSpot := @shouldBeReplacedWithSpot _ C;
     isUnattachedSpotInstanceLaunchedForAnEnabledASG :=
       @isUnattachedSpotInstanceLaunchedForAnEnabledASG _ C;
     launchSpotReplacement := @launchSpotReplacement _ C;
     swapWithGroupMember := @swapWithGroupMember _ C |}.

(** The data of the notification hold an identifier and no state. *)
Definition stateless : @Collaborators Double.elsewhere :=
  reading (fun _ => (Some "i-0456", None, None)).

(** The lifecycle events of the double, decoded. *)
Definition decoded_state_change : events.CloudWatchEvent :=
  {| events.DetailType := "EC2 Instance State-change Notification";
     events.Region := "us-east-1"; events.Detail := Double.detail_pending |}.

Definition decoded_interruption : events.CloudWatchEvent :=
  {| events.DetailType := "EC2 Spot Instance Interruption Warning";
     events.Region := "us-east-1"; events.Detail := Double.detail_interruption |}.

End Fixtures.

(** * Properties *)

(** ** Blank strings *)

Section TrimSpaceFacts.

Variables trimFunc trimRightFunc : string -> string.

Lemma len_zero (s : string) : len s = 0 <-> s = EmptyString.
Proof. destruct s; simpl; split; intro H; congruence. Qed.

Lemma string_of_rev_cons (c : ascii) (r : list ascii) :
  string_of_rev (c :: r) <> EmptyString.
Proof.
  unfold string_of_rev; simpl.
  destruct (rev r); simpl; discriminate.
Qed.

Lemma isASCII_In (s : string) :
  isASCII s = true ->
  forall c, In c (list_ascii_of_string s) -> nonASCII c = false.
Proof.
  induction s as [|a s IH]; simpl; intros H c Hc; [contradiction|].
  apply andb_true_iff in H as [Ha Hs].
  destruct Hc as [<-|Hc]; [now apply negb_true_iff|auto].
Qed.

(** The second loop stops at a byte that is not white space. *)
Lemma TrimSpace_stop_keeps (r : list ascii) :
  (forall c, In c r -> nonASCII c = false) ->
  (exists c, In c r /\ asciiSpace c = false) ->
  TrimSpace_stop trimRightFunc r <> EmptyString.
Proof.
  induction r as [|a r IH]; intros Hascii [c [Hin Hc]]; [contradiction|].
  simpl TrimSpace_stop.
  rewrite (Hascii a (or_introl eq_refl)).
  destruct (asciiSpace a) eqn:Ha.
  - apply IH.
    + intros c' Hc'; apply Hascii; now right.
    + destruct Hin as [->|Hin]; [congruence|eauto].
  - apply string_of_rev_cons.
Qed.

(** On ASCII text [strings.TrimSpace] leaves nothing exactly when every
    byte is white space. *)
Lemma TrimSpace_ascii_empty (s : string) :
  isASCII s = true ->
  (len (TrimSpace trimFunc trimRightFunc s) = 0 <-> all_asciiSpace s = true).
Proof.
  induction s as [|a s IH]; intro H.
  - simpl; tauto.
  - pose proof (isASCII_In _ H) as Hin.
    simpl in H; apply andb_true_iff in H as [Ha Hs].
    apply negb_true_iff in Ha.
    simpl TrimSpace; simpl all_asciiSpace; rewrite Ha.
    destruct (asciiSpace a) eqn:Hsp; simpl.
    + now apply IH.
    + split; [|discriminate].
      intro Hlen; apply len_zero in Hlen; exfalso; revert Hlen.
      apply TrimSpace_stop_keeps.
      * intros c Hc; apply Hin; now apply (proj2 (in_rev _ _)).
      * exists a; split; [|assumption].
        apply in_or_app; right; now left.
Qed.

End TrimSpaceFacts.

(** ** Running a computation *)

Ltac run :=
  unfold bind, ret, panic, emit, extern, get_config, put_config, get_mainEC2Conn,
    Println, Printf, deref, index0, observed;
  simpl.

Lemma bind_returned {X : Elsewhere} {A B : Type} {m : M A} (k : A -> M B)
  {p p' : Process} {v : A} :
  m p = (Returned v, p') -> bind m k p = k v p'.
Proof. intro E; unfold bind; now rewrite E. Qed.

Ltac exec :=
  unfold bind, ret, panic, emit, extern, get_config, put_config, get_mainEC2Conn,
    Println, Printf, deref, index0;
  cbn -[Sprintf Sprintln String.append].

Ltac string_cases s t :=
  let E := fresh "E" in
  destruct (String.eqb_spec s t) as [E|E]; simpl; try congruence.

(** ** Defaults of the configuration *)

Section Defaults.

Context {X : Elsewhere} {C : Collaborators}.

(** C7.  After [addDefaultFilteringMode] the tag-filtering mode is
    ["opt-out"] if the configured value was the string ["opt-out"], and
    ["opt-in"] for every other configured value, the empty one included.
    The call returns, writes no other field of the configuration and leaves
    the world as it was. *)
Theorem addDefaultFilteringMode_exact (p : Process) :
  let cfg := config (self p) in
  let cfg' := config (self (snd (addDefaultFilteringMode p))) in
  fst (addDefaultFilteringMode p) = Returned tt /\
  (TagFilteringMode cfg = "opt-out" -> TagFilteringMode cfg' = "opt-out") /\
  (TagFilteringMode cfg <> "opt-out" -> TagFilteringMode cfg' = "opt-in") /\
  cfg' = set_TagFilteringMode (TagFilteringMode cfg') cfg /\
  world (snd (addDefaultFilteringMode p)) = world p.
Proof.
  destruct p as [[cfg conn] w t]; destruct cfg as [mr rs mode flt act].
  unfold addDefaultFilteringMode; run.
  string_cases mode "opt-out"; repeat split; intros; congruence.
Qed.

(** C8.  After [addDefaultFilter], a filter expression that was blank, that
    is, of which [strings.TrimSpace] leaves nothing, has become
    ["spot-enabled=false"] when the filtering mode is ["opt-out"] and
    ["spot-enabled=true"] otherwise; an expression that was not blank is the
    one configured.  An expression without a byte outside ASCII is blank
    exactly when it is empty or made of white space only. *)
Theorem addDefaultFilter_blank (p : Process) :
  let cfg := config (self p) in
  let cfg' := config (self (snd (addDefaultFilter p))) in
  fst (addDefaultFilter p) = Returned tt /\
  (blank (FilterByTags cfg) -> TagFilteringMode cfg = "opt-out" ->
   FilterByTags cfg' = "spot-enabled=false") /\
  (blank (FilterByTags cfg) -> TagFilteringMode cfg <> "opt-out" ->
   FilterByTags cfg' = "spot-enabled=true") /\
  (~ blank (FilterByTags cfg) -> FilterByTags cfg' = FilterByTags cfg) /\
  cfg' = set_FilterByTags (FilterByTags cfg') cfg /\
  (isASCII (FilterByTags cfg) = true ->
   (blank (FilterByTags cfg) <-> all_asciiSpace (FilterByTags cfg) = true)).
Proof.
  destruct p as [[cfg conn] w t]; destruct cfg as [mr rs mode flt act].
  unfold addDefaultFilter, blank; run.
  pose proof (TrimSpace_ascii_empty TrimFunc_IsSpace TrimRightFunc_IsSpace flt) as Hascii.
  destruct (Nat.eqb_spec (len (strings_TrimSpace flt)) 0) as [Hb|Hb];
    [string_cases mode "opt-out"|]; simpl;
    repeat split; intros; try congruence; try contradiction; now apply Hascii.
Qed.

End Defaults.

(** ** What a computation may add to the trace *)

Section Emits.

Context {X : Elsewhere}.

Variable ok : Event -> bool.

Lemma emits_only_ret {A : Type} (v : A) : emits_only ok (ret v).
Proof. intro p; exists []; simpl; now rewrite app_nil_r. Qed.

Lemma emits_only_panic {A : Type} (reason : string) : emits_only ok (@panic _ A reason).
Proof. intro p; exists []; simpl; now rewrite app_nil_r. Qed.

Lemma emits_only_bind {A B : Type} (m : M A) (k : A -> M B) :
  emits_only ok m -> (forall v, emits_only ok (k v)) -> emits_only ok (bind m k).
Proof.
  intros Hm Hk p; unfold bind.
  destruct (Hm p) as [t1 [E1 F1]].
  destruct (m p) as [[v|reason] p1]; simpl in E1.
  - destruct (Hk v p1) as [t2 [E2 F2]].
    exists (t1 ++ t2)%list; split.
    + now rewrite E2, E1, app_assoc.
    + now rewrite forallb_app, F1, F2.
  - now exists t1.
Qed.

Lemma emits_only_emit (e : Event) : ok e = true -> emits_only ok (emit e).
Proof. intros He p; exists [e]; simpl; now rewrite He. Qed.

Lemma emits_only_extern {A : Type} (e : Event) (f : IO A) :
  ok e = true -> emits_only ok (extern e f).
Proof.
  intros He p; exists [e]; unfold extern.
  destruct (f (world p)); simpl; now rewrite He.
Qed.

Lemma emits_only_get_config : emits_only ok get_config.
Proof. intro p; exists []; simpl; now rewrite app_nil_r. Qed.

Lemma emits_only_put_config (cfg : Config) : emits_only ok (put_config cfg).
Proof. intro p; exists []; simpl; now rewrite app_nil_r. Qed.

Lemma emits_only_get_mainEC2Conn : emits_only ok get_mainEC2Conn.
Proof. intro p; exists []; simpl; now rewrite app_nil_r. Qed.

Lemma emits_only_deref {A : Type} (ptr : option A) : emits_only ok (deref ptr).
Proof. destruct ptr; [apply emits_only_ret|apply emits_only_panic]. Qed.

Lemma emits_only_index0 {A : Type} (s : list A) : emits_only ok (index0 s).
Proof. destruct s; [apply emits_only_panic|apply emits_only_ret]. Qed.

Lemma emits_only_Println (l : Logger) (operands : list string) :
  (forall line, ok (Log l line) = true) -> emits_only ok (Println l operands).
Proof. intro H; apply emits_only_emit, H. Qed.

Lemma emits_only_Printf (l : Logger) (format : string) (operands : list string) :
  (forall line, ok (Log l line) = true) -> emits_only ok (Printf l format operands).
Proof. intro H; apply emits_only_emit, H. Qed.

End Emits.

(** Splits a goal [emits_only ok m] along the structure of [m]. *)
Ltac emits :=
  repeat first
    [ apply emits_only_ret
    | apply emits_only_panic
    | apply emits_only_get_config
    | apply emits_only_put_config
    | apply emits_only_get_mainEC2Conn
    | apply emits_only_deref
    | apply emits_only_index0
    | apply emits_only_Println; intros; reflexivity
    | apply emits_only_Printf; intros; reflexivity
    | apply emits_only_emit; reflexivity
    | apply emits_only_extern; reflexivity
    | apply emits_only_bind; [|intros]
    | match goal with
      | |- emits_only _ (if ?b then _ else _) => destruct b
      | |- emits_only _ (match ?x with _ => _ end) => destruct x
      | |- emits_only _ (let '(_, _) := ?x in _) => destruct x
      end ].

(** ** The periodic scan *)

Section Cron.

Context {X : Elsewhere} {C : Collaborators}.

Lemma addDefaultFilteringMode_runs (p : Process) :
  exists cfg' line,
    addDefaultFilteringMode p =
    (Returned tt,
     {| self := set_config cfg' (self p); world := world p;
        trace := trace p ++ [Log debug line] |}).
Proof.
  destruct p as [[cfg conn] w t].
  unfold addDefaultFilteringMode; run.
  destruct (negb (TagFilteringMode cfg =? "opt-out")); simpl;
    do 2 eexists; reflexivity.
Qed.

Lemma addDefaultFilter_runs (p : Process) :
  exists cfg',
    addDefaultFilter p =
    (Returned tt,
     {| self := set_config cfg' (self p); world := world p; trace := trace p |}).
Proof.
  destruct p as [[cfg conn] w t].
  unfold addDefaultFilter; run.
  destruct (len (strings_TrimSpace (FilterByTags cfg)) =? 0)%nat;
    [destruct (TagFilteringMode cfg =? "opt-out")|]; simpl;
    eexists; reflexivity.
Qed.

Lemma getRegions_range_emits (ok : Event -> bool) :
  (forall l line, ok (Log l line) = true) ->
  forall regions output, emits_only ok (getRegions_range regions output).
Proof.
  intros Hlog regions; induction regions as [|r rest IH]; intro output; simpl.
  - emits.
  - destruct r as [[[regionName|]]|]; auto.
    apply emits_only_bind; [apply emits_only_Println; auto|auto].
Qed.

Lemma processRegions_emits (ok : Event -> bool) :
  (forall l line, ok (Log l line) = true) ->
  (forall r, ok (Go_regionWorker r) = true) ->
  (forall r, ok (Call_processRegion r) = true) ->
  forall regions, emits_only ok (processRegions regions).
Proof.
  intros Hlog Hgo Hcall regions; induction regions as [|r rest IH]; simpl.
  - emits.
  - apply emits_only_bind; [apply emits_only_get_config|intro cfg].
    apply emits_only_bind; [apply emits_only_emit; auto|intros _].
    apply emits_only_bind; [|auto].
    unfold regionWorker. destruct (enabled _).
    + apply emits_only_bind; [apply emits_only_Printf; auto|intros _].
      apply emits_only_extern; auto.
    + apply emits_only_bind; [apply emits_only_Println; auto|intros _].
      apply emits_only_Println; auto.
Qed.

(** A periodic scan hands no payload to [json.Unmarshal]. *)
Lemma ProcessCronEvent_no_parse :
  emits_only (fun e => negb (is_parse e)) ProcessCronEvent.
Proof.
  unfold ProcessCronEvent, addDefaultFilteringMode, addDefaultFilter, getRegions.
  emits; try (apply getRegions_range_emits; reflexivity);
    try (apply processRegions_emits; reflexivity).
Qed.

(** C4.  When the request that enumerates the regions answers with an
    error, [getRegions] returns that error with no region, and the periodic
    scan returns having processed none: the world is as that one request
    left it, no region worker was started and nothing was asked for any
    region or instance. *)
Theorem ProcessCronEvent_enumeration_failure
  (p : Process) (resp : option ec2.DescribeRegionsOutput) (e : error) (w' : World) :
  DescribeRegions (mainEC2Conn (self p)) ec2.DescribeRegionsInput_zero (world p)
  = ((resp, Some e), w') ->
  fst (getRegions p) = Returned ([], Some e) /\
  fst (ProcessCronEvent p) = Returned tt /\
  world (snd (ProcessCronEvent p)) = w' /\
  exists t,
    trace (snd (ProcessCronEvent p)) = (trace p ++ t)%list /\
    existsb is_region_effect t = false.
Proof.
  intro H.
  split.
  { unfold getRegions; run; rewrite H; reflexivity. }
  destruct (addDefaultFilteringMode_runs p) as [cfg1 [line E1]].
  unfold ProcessCronEvent; rewrite !(bind_returned _ E1).
  match goal with
  | |- context [bind addDefaultFilter _ ?q] =>
      destruct (addDefaultFilter_runs q) as [cfg2 E2]
  end.
  rewrite !(bind_returned _ E2).
  unfold getRegions; run; rewrite H; simpl.
  repeat split.
  eexists; split; [repeat rewrite <- app_assoc; reflexivity|reflexivity].
Qed.

End Cron.

(** ** The dispatch *)

Section Dispatch.

Context {X : Elsewhere} {C : Collaborators}.

Lemma observed_observed (t1 t2 : list Event) (p : Process) :
  observed t2 (observed t1 p) = observed (t1 ++ t2) p.
Proof. unfold observed; simpl; now rewrite app_assoc. Qed.

(** The first [json.Unmarshal] and the unwrapping of the envelope. *)
Lemma EventHandler_present (payload : json.RawMessage) (p : Process) :
  EventHandler (Some payload) p =
  let received :=
    [Log stdlog (Sprintln ["Received event: " ++ nl; payload]);
     Unmarshal payload SNSEvent_target] in
  match Unmarshal_SNSEvent payload with
  | json.Failed err =>
      (Returned tt, observed (received ++ [Log stdlog (Sprintln [Error err])]) p)
  | json.Decoded snsEvent =>
      match unwrapped payload snsEvent with
      | Some inner => EventHandler_parse inner (observed received p)
      | None => (Panicked index_out_of_range, observed received p)
      end
  end.
Proof.
  unfold EventHandler, unwrapped, bind, Println, emit, index0, ret, panic, observed.
  cbn -[EventHandler_parse Sprintln].
  destruct (Unmarshal_SNSEvent payload) as [[[[|snsRecord rest]|]]|err];
    cbn -[EventHandler_parse Sprintln]; repeat rewrite <- app_assoc; reflexivity.
Qed.

(** The second [json.Unmarshal]. *)
Lemma EventHandler_parse_eq (inner : json.RawMessage) (p : Process) :
  EventHandler_parse inner p =
  match Unmarshal_CloudWatchEvent inner with
  | json.Failed err =>
      (Returned tt,
       observed [Unmarshal inner CloudWatchEvent_target;
                 Log stdlog (Sprintln [Error err])] p)
  | json.Decoded ev =>
      EventHandler_dispatch ev (observed [Unmarshal inner CloudWatchEvent_target] p)
  end.
Proof.
  unfold EventHandler_parse, bind, Println, emit, observed.
  cbn -[EventHandler_dispatch Sprintln].
  destruct (Unmarshal_CloudWatchEvent inner) as [ev|err];
    cbn -[EventHandler_dispatch Sprintln]; repeat rewrite <- app_assoc; reflexivity.
Qed.

(** The two lemmas together, for a payload that passes both parses. *)
Lemma EventHandler_classified
  (payload inner : json.RawMessage) (snsEvent : events.SNSEvent)
  (ev : events.CloudWatchEvent) (p : Process) :
  Unmarshal_SNSEvent payload = json.Decoded snsEvent ->
  unwrapped payload snsEvent = Some inner ->
  Unmarshal_CloudWatchEvent inner = json.Decoded ev ->
  EventHandler (Some payload) p =
  EventHandler_dispatch ev (observed (classification payload inner) p).
Proof.
  intros H1 H2 H3.
  rewrite EventHandler_present, H1; cbv zeta; rewrite H2.
  rewrite EventHandler_parse_eq, H3, observed_observed; reflexivity.
Qed.


(** C9.  With no payload, [EventHandler] logs that the event data is
    missing and runs the periodic scan; nothing is handed to
    [json.Unmarshal]. *)
Theorem EventHandler_absent (p : Process) :
  EventHandler None p =
  ProcessCronEvent
    (observed
       [Log logger
          (Sprintln ["Missing event data, running as if triggered from a cron event..."])]
       p) /\
  exists t,
    trace (snd (EventHandler None p)) = (trace p ++ t)%list /\
    existsb is_parse t = false.
Proof.
  split; [reflexivity|].
  assert (H : emits_only (fun e => negb (is_parse e)) (EventHandler None)).
  { unfold EventHandler.
    apply emits_only_bind; [apply emits_only_Println; reflexivity|intros _].
    apply ProcessCronEvent_no_parse. }
  destruct (H p) as [t [E F]].
  exists t; split; [assumption|].
  clear E; induction t as [|e t IH]; simpl in *; [reflexivity|].
  apply andb_true_iff in F as [Fe Ft].
  apply negb_true_iff in Fe; rewrite Fe; auto.
Qed.

(** C5.  A payload that passes both parses and carries a [DetailType] other
    than ["EC2 Spot Instance Interruption Warning"] and ["EC2 Instance
    State-change Notification"] makes [EventHandler] run the periodic scan,
    once the payload has been logged and parsed. *)
Theorem EventHandler_other_DetailType
  (payload inner : json.RawMessage) (snsEvent : events.SNSEvent)
  (ev : events.CloudWatchEvent) (p : Process) :
  Unmarshal_SNSEvent payload = json.Decoded snsEvent ->
  unwrapped payload snsEvent = Some inner ->
  Unmarshal_CloudWatchEvent inner = json.Decoded ev ->
  events.DetailType ev <> "EC2 Spot Instance Interruption Warning" ->
  events.DetailType ev <> "EC2 Instance State-change Notification" ->
  EventHandler (Some payload) p =
  ProcessCronEvent (observed (classification payload inner) p).
Proof.
  intros H1 H2 H3 N1 N2.
  rewrite (EventHandler_classified _ _ H1 H2 H3).
  unfold EventHandler_dispatch.
  apply String.eqb_neq in N1, N2; rewrite N1, N2; reflexivity.
Qed.

(** C1, as the code has it.  A payload that is present and fails to parse,
    as a notification envelope or, once unwrapped, as a lifecycle event,
    makes [EventHandler] log the error of the parse and return: the world
    and the configuration are as they were and the trace has gained the
    log lines and the parses only, so no periodic scan was run. *)
Theorem EventHandler_unparseable (payload : json.RawMessage) (p : Process) :
  (forall err,
     Unmarshal_SNSEvent payload = json.Failed err ->
     EventHandler (Some payload) p =
     (Returned tt,
      observed [Log stdlog (Sprintln ["Received event: " ++ nl; payload]);
                Unmarshal payload SNSEvent_target;
                Log stdlog (Sprintln [Error err])] p)) /\
  (forall snsEvent inner err,
     Unmarshal_SNSEvent payload = json.Decoded snsEvent ->
     unwrapped payload snsEvent = Some inner ->
     Unmarshal_CloudWatchEvent inner = json.Failed err ->
     EventHandler (Some payload) p =
     (Returned tt,
      observed (classification payload inner ++ [Log stdlog (Sprintln [Error err])]) p)).
Proof.
  split.
  - intros err H; rewrite EventHandler_present, H; reflexivity.
  - intros snsEvent inner err H1 H2 H3.
    rewrite EventHandler_present, H1; cbv zeta; rewrite H2.
    rewrite EventHandler_parse_eq, H3, observed_observed; reflexivity.
Qed.

(** C10.  The unwrapping is guarded on the record list being there, not on
    its having a record: when the envelope decodes with a record list that
    is there and empty, [EventHandler] panics on [Records[0]], having run
    no scan and logged no error; in every other case the unwrapping yields
    a working payload and the second parse is reached. *)
Theorem EventHandler_empty_record_list
  (payload : json.RawMessage) (snsEvent : events.SNSEvent) (p : Process) :
  Unmarshal_SNSEvent payload = json.Decoded snsEvent ->
  let received :=
    [Log stdlog (Sprintln ["Received event: " ++ nl; payload]);
     Unmarshal payload SNSEvent_target] in
  (events.Records snsEvent = Some [] ->
   EventHandler (Some payload) p = (Panicked index_out_of_range, observed received p)) /\
  (events.Records snsEvent <> Some [] ->
   exists inner,
     unwrapped payload snsEvent = Some inner /\
     EventHandler (Some payload) p = EventHandler_parse inner (observed received p)).
Proof.
  intros H received; rewrite EventHandler_present, H; cbv zeta.
  unfold unwrapped.
  destruct snsEvent as [[[|snsRecord rest]|]]; simpl; split; intro E;
    try congruence; eauto.
Qed.

End Dispatch.

(** ** The envelope *)

Section Envelope.

Context {X : Elsewhere} {C : Collaborators}.

(** Nothing past the first parse reads the decoder of envelopes. *)
Lemma EventHandler_parse_decoder
  (decode : json.RawMessage -> json.decoded events.SNSEvent)
  (inner : json.RawMessage) (p : Process) :
  @EventHandler_parse X (with_Unmarshal_SNSEvent decode) inner p =
  EventHandler_parse inner p.
Proof. reflexivity. Qed.

(** C6.  When the payload decodes as an envelope with at least one record,
    [EventHandler] goes on with the message of the first record as its
    working payload, and the records after the first change nothing: with
    any other records behind the same first one the run is the same. *)
Theorem EventHandler_first_record_only
  (payload : json.RawMessage) (snsRecord : events.SNSEventRecord)
  (rest : list events.SNSEventRecord) (p : Process) :
  Unmarshal_SNSEvent payload
  = json.Decoded {| events.Records := Some (snsRecord :: rest) |} ->
  EventHandler (Some payload) p =
  EventHandler_parse (events.Message (events.SNS snsRecord))
    (observed [Log stdlog (Sprintln ["Received event: " ++ nl; payload]);
               Unmarshal payload SNSEvent_target] p) /\
  forall decode rest',
    decode payload = json.Decoded {| events.Records := Some (snsRecord :: rest') |} ->
    @EventHandler X (with_Unmarshal_SNSEvent decode) (Some payload) p =
    EventHandler (Some payload) p.
Proof.
  intro H; split.
  - rewrite EventHandler_present, H; reflexivity.
  - intros decode rest' H'.
    rewrite (@EventHandler_present X (with_Unmarshal_SNSEvent decode)).
    rewrite EventHandler_present, H.
    change (@Unmarshal_SNSEvent X (with_Unmarshal_SNSEvent decode) payload)
      with (decode payload).
    rewrite H'; reflexivity.
Qed.

End Envelope.

(** ** The single-event path *)

Section SingleEvent.

Context {X : Elsewhere} {C : Collaborators}.

(** Closes a goal [exists t, trace q = trace p ++ t /\ _] once [q] is
    explicit. *)
Ltac new_trace :=
  eexists; split;
  [ cbn -[Sprintf Sprintln String.append]; repeat rewrite <- app_assoc; reflexivity
  | cbn -[Sprintf Sprintln String.append] ].

(** C3.  For an instance that [handleNewInstanceLaunch] has found, whose
    identifier and state name are there to be logged: in state ["pending"]
    with [belongsToEnabledASG] and [shouldBeReplacedWithSpot] both true the
    one action is [LaunchSpotReplacement]; in state ["pending"] with one of
    them false there is no action and no error; in state ["running"] with
    [isUnattachedSpotInstanceLaunchedForAnEnabledASG] true the one action is
    [SwapWithGroupMember]; in state ["running"] with it false there is no
    action and no error; in any other state there is no action and no
    error. *)
Theorem handleNewInstanceLaunch_decision
  (i : instance) (state : string) (p : Process)
  (id : string) (st : ec2.InstanceState) (stateName : string) :
  InstanceId i = Some id ->
  State i = Some st ->
  ec2.Name st = Some stateName ->
  let result := handleNewInstanceLaunch_found i state p in
  exists t,
    trace (snd result) = (trace p ++ t)%list /\
    (state = "pending" -> belongsToEnabledASG i = true ->
     shouldBeReplacedWithSpot i = true ->
     actions t = [LaunchSpotReplacement i]) /\
    (state = "pending" ->
     belongsToEnabledASG i = false \/ shouldBeReplacedWithSpot i = false ->
     actions t = [] /\ fst result = Returned None) /\
    (state = "running" -> isUnattachedSpotInstanceLaunchedForAnEnabledASG i = true ->
     actions t = [SwapWithGroupMember i]) /\
    (state = "running" -> isUnattachedSpotInstanceLaunchedForAnEnabledASG i = false ->
     actions t = [] /\ fst result = Returned None) /\
    (state <> "pending" -> state <> "running" ->
     actions t = [] /\ fst result = Returned None).
Proof.
  intros Hid Hst Hname.
  unfold handleNewInstanceLaunch_found, handleNewInstanceLaunch_running.
  rewrite Hid, Hst; exec; rewrite Hname; exec.
  destruct (String.eqb_spec state "pending") as [Ep|Ep];
    destruct (String.eqb_spec state "running") as [Er|Er];
    try (exfalso; congruence);
    destruct (belongsToEnabledASG i) eqn:Eb;
    destruct (shouldBeReplacedWithSpot i) eqn:Es;
    destruct (isUnattachedSpotInstanceLaunchedForAnEnabledASG i) eqn:Eu;
    exec;
    repeat match goal with
    | |- context [launchSpotReplacement ?j ?w] =>
        destruct (launchSpotReplacement j w) as [[?|] ?]; exec
    | |- context [swapWithGroupMember ?j ?w] =>
        destruct (swapWithGroupMember j w) as [[?|] ?]; exec
    end;
    new_trace;
    (repeat split; intros;
     repeat match goal with H : _ \/ _ |- _ => destruct H end;
     congruence).
Qed.

(** [EventHandler] on a state-change notification: the error that
    [handleNewInstanceLaunch] returns is dropped. *)
Lemma EventHandler_state_change
  (payload inner : json.RawMessage) (snsEvent : events.SNSEvent)
  (ev : events.CloudWatchEvent) (instanceID state : string) (p : Process) :
  Unmarshal_SNSEvent payload = json.Decoded snsEvent ->
  unwrapped payload snsEvent = Some inner ->
  Unmarshal_CloudWatchEvent inner = json.Decoded ev ->
  events.DetailType ev = "EC2 Instance State-change Notification" ->
  parseEventData ev = (Some instanceID, Some state, None) ->
  EventHandler (Some payload) p =
  (_ <- handleNewInstanceLaunch (events.Region ev) instanceID state ;; ret tt)
    (observed (classification payload inner ++ [triggered_by ev]) p).
Proof.
  intros H1 H2 H3 H4 H5.
  rewrite (EventHandler_classified _ _ H1 H2 H3).
  unfold EventHandler_dispatch; rewrite H4, H5.
  cbn -[handleNewInstanceLaunch Sprintln classification].
  rewrite <- observed_observed.
  unfold triggered_by; rewrite H4; reflexivity.
Qed.

(** C2, as the code has it.  On the single-event path every error is
    returned by [handleNewInstanceLaunch] to [EventHandler]: the one for a
    region that is not enabled, the error of [scanInstance], the one for an
    instance that the scan did not bring, and the error of
    [launchSpotReplacement] or of [swapWithGroupMember].  [EventHandler]
    has no result: it returns to its caller as it does when there was no
    error. *)
Theorem handleNewInstanceLaunch_errors
  (regionName instanceID state : string) (p : Process) :
  let r0 := {| name := regionName; conf := config (self p);
               fields := regionFields_zero |} in
  (enabled r0 = false ->
   handleNewInstanceLaunch regionName instanceID state p =
   (Returned (Some (fmt_Errorf "region %s is not enabled" [regionName])), p)) /\
  (forall r e p',
     enabled r0 = true ->
     handleNewInstanceLaunch_scan regionName r0 instanceID p = (Returned (r, Some e), p') ->
     fst (handleNewInstanceLaunch regionName instanceID state p) = Returned (Some e)) /\
  (forall r p',
     enabled r0 = true ->
     handleNewInstanceLaunch_scan regionName r0 instanceID p = (Returned (r, None), p') ->
     instances_get r instanceID = None ->
     fst (handleNewInstanceLaunch regionName instanceID state p) =
     Returned (Some (errors_New "instance missing"))) /\
  (forall r p' i,
     enabled r0 = true ->
     handleNewInstanceLaunch_scan regionName r0 instanceID p = (Returned (r, None), p') ->
     instances_get r instanceID = Some i ->
     handleNewInstanceLaunch regionName instanceID state p =
     handleNewInstanceLaunch_found i state p') /\
  (forall i id st stateName e w',
     InstanceId i = Some id -> State i = Some st -> ec2.Name st = Some stateName ->
     state = "pending" ->
     belongsToEnabledASG i = true -> shouldBeReplacedWithSpot i = true ->
     launchSpotReplacement i (world p) = (Some e, w') ->
     fst (handleNewInstanceLaunch_found i state p) = Returned (Some e)) /\
  (forall i id st stateName e w',
     InstanceId i = Some id -> State i = Some st -> ec2.Name st = Some stateName ->
     state = "running" ->
     isUnattachedSpotInstanceLaunchedForAnEnabledASG i = true ->
     swapWithGroupMember i (world p) = (Some e, w') ->
     fst (handleNewInstanceLaunch_found i state p) = Returned (Some e)) /\
  (forall payload inner snsEvent ev,
     Unmarshal_SNSEvent payload = json.Decoded snsEvent ->
     unwrapped payload snsEvent = Some inner ->
     Unmarshal_CloudWatchEvent inner = json.Decoded ev ->
     events.DetailType ev = "EC2 Instance State-change Notification" ->
     events.Region ev = regionName ->
     parseEventData ev = (Some instanceID, Some state, None) ->
     let q := observed (classification payload inner ++ [triggered_by ev]) p in
     forall result p',
       handleNewInstanceLaunch regionName instanceID state q = (Returned result, p') ->
       EventHandler (Some payload) p = (Returned tt, p')).
Proof.
  intro r0.
  split; [|split; [|split; [|split; [|split; [|split]]]]].
  - intro E; unfold handleNewInstanceLaunch; exec; fold r0; rewrite E; reflexivity.
  - intros r e p' E H.
    unfold handleNewInstanceLaunch; unfold bind at 1; unfold get_config at 1.
    cbv beta iota zeta; fold r0; rewrite E; cbv beta iota delta [negb].
    rewrite (bind_returned _ H); reflexivity.
  - intros r p' E H G.
    unfold handleNewInstanceLaunch; unfold bind at 1; unfold get_config at 1.
    cbv beta iota zeta; fold r0; rewrite E; cbv beta iota delta [negb].
    rewrite (bind_returned _ H), G; reflexivity.
  - intros r p' i E H G.
    unfold handleNewInstanceLaunch; unfold bind at 1; unfold get_config at 1.
    cbv beta iota zeta; fold r0; rewrite E; cbv beta iota delta [negb].
    rewrite (bind_returned _ H), G; reflexivity.
  - intros i id st stateName e w' Hid Hst Hname -> Eb Es L.
    unfold handleNewInstanceLaunch_found.
    rewrite Hid, Hst; exec; rewrite Hname; exec.
    rewrite Eb, Es; exec; rewrite L; reflexivity.
  - intros i id st stateName e w' Hid Hst Hname -> Eu S.
    unfold handleNewInstanceLaunch_found, handleNewInstanceLaunch_running.
    rewrite Hid, Hst; exec; rewrite Hname; exec.
    rewrite Eu; exec; rewrite S; reflexivity.
  - intros payload inner snsEvent ev H1 H2 H3 H4 <- H5 q result p' H.
    rewrite (EventHandler_state_change _ _ H1 H2 H3 H4 H5).
    fold q; rewrite (bind_returned _ H); reflexivity.
Qed.

End SingleEvent.

(** ** Runs on the test double *)

Section Runs.

#[local] Existing Instance Double.elsewhere.
#[local] Existing Instance Double.collaborators.

Import Double.

(** The mode of three configurations: ["opt-out"], a near miss and none. *)
Lemma addDefaultFilteringMode_exact_witness :
  TagFilteringMode
    (config (self (snd (addDefaultFilteringMode (fresh (configured "" "opt-out" "") reachable)))))
  = "opt-out" /\
  TagFilteringMode
    (config (self (snd (addDefaultFilteringMode (fresh (configured "" "optout" "") reachable)))))
  = "opt-in" /\
  TagFilteringMode
    (config (self (snd (addDefaultFilteringMode (fresh (configured "" "" "") reachable)))))
  = "opt-in".
Proof.
  split; [|split].
  - apply (addDefaultFilteringMode_exact (fresh (configured "" "opt-out" "") reachable)).
    reflexivity.
  - apply (addDefaultFilteringMode_exact (fresh (configured "" "optout" "") reachable)).
    simpl; discriminate.
  - apply (addDefaultFilteringMode_exact (fresh (configured "" "" "") reachable)).
    simpl; discriminate.
Defined.

(** A filter of two spaces under ["opt-out"], no filter under ["opt-in"], and
    a filter that is kept, white space around it included. *)
Lemma addDefaultFilter_blank_witness :
  FilterByTags
    (config (self (snd (addDefaultFilter (fresh (configured "" "opt-out" "  ") reachable)))))
  = "spot-enabled=false" /\
  FilterByTags
    (config (self (snd (addDefaultFilter (fresh (configured "" "opt-in" "") reachable)))))
  = "spot-enabled=true" /\
  FilterByTags
    (config (self (snd (addDefaultFilter (fresh (configured "" "opt-in" " team=a ") reachable)))))
  = " team=a " /\
  (blank "  " <-> all_asciiSpace "  " = true).
Proof.
  split; [|split; [|split]].
  - apply (addDefaultFilter_blank (fresh (configured "" "opt-out" "  ") reachable));
      reflexivity.
  - apply (addDefaultFilter_blank (fresh (configured "" "opt-in" "") reachable));
      [reflexivity|simpl; discriminate].
  - apply (addDefaultFilter_blank (fresh (configured "" "opt-in" " team=a ") reachable)).
    intro H; vm_compute in H; discriminate.
  - apply (addDefaultFilter_blank (fresh (configured "" "opt-out" "  ") reachable)).
    reflexivity.
Defined.

(** The periodic scan over a connection whose request fails. *)
Lemma ProcessCronEvent_enumeration_failure_witness :
  fst (ProcessCronEvent (fresh open_config unreachable)) = Returned tt /\
  world (snd (ProcessCronEvent (fresh open_config unreachable))) = 1 /\
  exists t,
    trace (snd (ProcessCronEvent (fresh open_config unreachable))) = t /\
    existsb is_region_effect t = false.
Proof.
  destruct (@ProcessCronEvent_enumeration_failure elsewhere collaborators (fresh open_config unreachable)
              None (errors_New "RequestError: send request failed") 1 eq_refl)
    as [_ [R [W [t [T F]]]]].
  split; [exact R|split; [exact W|]].
  exists t; split; [exact T|exact F].
Defined.

(** A scheduled event of the event bus, delivered bare. *)
Lemma EventHandler_other_DetailType_witness :
  EventHandler (Some scheduled) (fresh open_config reachable) =
  ProcessCronEvent (observed (classification scheduled scheduled) (fresh open_config reachable)).
Proof.
  apply (@EventHandler_other_DetailType elsewhere collaborators scheduled scheduled
           {| events.Records := None |}
           {| events.DetailType := "Scheduled Event";
              events.Region := "us-east-1"; events.Detail := "{}" |}).
  - vm_compute; reflexivity.
  - reflexivity.
  - vm_compute; reflexivity.
  - simpl; discriminate.
  - simpl; discriminate.
Defined.

(** A text that is not JSON, bare and as the message of an envelope. *)
Lemma EventHandler_unparseable_witness :
  fst (EventHandler (Some garbage) (fresh open_config reachable)) = Returned tt /\
  world (snd (EventHandler (Some garbage) (fresh open_config reachable))) = 0 /\
  fst (EventHandler (Some (envelope [garbage])) (fresh open_config reachable)) = Returned tt /\
  world (snd (EventHandler (Some (envelope [garbage])) (fresh open_config reachable))) = 0.
Proof.
  destruct (@EventHandler_unparseable elsewhere collaborators garbage (fresh open_config reachable)) as [H1 _].
  destruct (@EventHandler_unparseable elsewhere collaborators (envelope [garbage]) (fresh open_config reachable))
    as [_ H2].
  pose proof (H1 syntax_error ltac:(vm_compute; reflexivity)) as E1.
  pose proof (H2 {| events.Records := Some [record_of garbage] |} garbage syntax_error
                ltac:(vm_compute; reflexivity) eq_refl ltac:(vm_compute; reflexivity))
    as E2.
  rewrite E1, E2; repeat split.
Defined.

(** An envelope without a record, and one with a record. *)
Lemma EventHandler_empty_record_list_witness :
  fst (EventHandler (Some envelope_no_record) (fresh open_config reachable))
  = Panicked index_out_of_range /\
  world (snd (EventHandler (Some envelope_no_record) (fresh open_config reachable))) = 0 /\
  exists inner,
    EventHandler (Some (envelope [interruption])) (fresh open_config reachable) =
    EventHandler_parse inner
      (observed [Log stdlog (Sprintln ["Received event: " ++ nl; envelope [interruption]]);
                 Unmarshal (envelope [interruption]) SNSEvent_target]
         (fresh open_config reachable)).
Proof.
  destruct (@EventHandler_empty_record_list elsewhere collaborators envelope_no_record
              {| events.Records := Some [] |} (fresh open_config reachable)
              ltac:(vm_compute; reflexivity)) as [H _].
  destruct (@EventHandler_empty_record_list elsewhere collaborators (envelope [interruption])
              {| events.Records := Some [record_of interruption] |}
              (fresh open_config reachable)
              ltac:(vm_compute; reflexivity)) as [_ G].
  pose proof (H eq_refl) as E0; rewrite E0.
  split; [reflexivity|split; [reflexivity|]].
  destruct (G ltac:(simpl; discriminate)) as [inner [_ E]].
  exists inner; exact E.
Defined.

(** An envelope of two records: the scheduled event in front is the one that
    is parsed. *)
Lemma EventHandler_first_record_only_witness :
  EventHandler (Some (envelope [scheduled; state_change_pending])) (fresh open_config reachable) =
  EventHandler_parse scheduled
    (observed
       [Log stdlog
          (Sprintln ["Received event: " ++ nl; envelope [scheduled; state_change_pending]]);
        Unmarshal (envelope [scheduled; state_change_pending]) SNSEvent_target]
       (fresh open_config reachable)).
Proof.
  apply (@EventHandler_first_record_only elsewhere collaborators (envelope [scheduled; state_change_pending])
           (record_of scheduled) [record_of state_change_pending]).
  vm_compute; reflexivity.
Defined.

(** The five rows of the decision table, on the two instances of the
    double. *)
Lemma handleNewInstanceLaunch_decision_witness :
  (exists t,
     trace (snd (handleNewInstanceLaunch_found pending_instance "pending"
                   (fresh open_config reachable))) = t /\
     actions t = [LaunchSpotReplacement pending_instance]) /\
  (exists t,
     trace (snd (handleNewInstanceLaunch_found running_instance "running"
                   (fresh open_config reachable))) = t /\
     actions t = [SwapWithGroupMember running_instance]) /\
  (exists t,
     trace (snd (handleNewInstanceLaunch_found running_instance "pending"
                   (fresh open_config reachable))) = t /\
     actions t = []) /\
  (exists t,
     trace (snd (handleNewInstanceLaunch_found pending_instance "running"
                   (fresh open_config reachable))) = t /\
     actions t = []) /\
  (exists t,
     trace (snd (handleNewInstanceLaunch_found pending_instance "stopped"
                   (fresh open_config reachable))) = t /\
     actions t = []).
Proof.
  split; [|split; [|split; [|split]]].
  - destruct (@handleNewInstanceLaunch_decision elsewhere collaborators pending_instance "pending"
                (fresh open_config reachable) "i-0456" {| ec2.Name := Some "pending" |}
                "pending" eq_refl eq_refl eq_refl) as [t [T [H _]]].
    exists t; split; [exact T|exact (H eq_refl eq_refl eq_refl)].
  - destruct (@handleNewInstanceLaunch_decision elsewhere collaborators running_instance "running"
                (fresh open_config reachable) "i-0789" {| ec2.Name := Some "running" |}
                "running" eq_refl eq_refl eq_refl) as [t [T [_ [_ [H _]]]]].
    exists t; split; [exact T|exact (H eq_refl eq_refl)].
  - destruct (@handleNewInstanceLaunch_decision elsewhere collaborators running_instance "pending"
                (fresh open_config reachable) "i-0789" {| ec2.Name := Some "running" |}
                "running" eq_refl eq_refl eq_refl) as [t [T [_ [H _]]]].
    exists t; split; [exact T|exact (proj1 (H eq_refl (or_introl eq_refl)))].
  - destruct (@handleNewInstanceLaunch_decision elsewhere collaborators pending_instance "running"
                (fresh open_config reachable) "i-0456" {| ec2.Name := Some "pending" |}
                "pending" eq_refl eq_refl eq_refl) as [t [T [_ [_ [_ [H _]]]]]].
    exists t; split; [exact T|exact (proj1 (H eq_refl eq_refl))].
  - destruct (@handleNewInstanceLaunch_decision elsewhere collaborators pending_instance "stopped"
                (fresh open_config reachable) "i-0456" {| ec2.Name := Some "pending" |}
                "pending" eq_refl eq_refl eq_refl) as [t [T [_ [_ [_ [_ H]]]]]].
    exists t; split; [exact T|].
    apply H; simpl; discriminate.
Defined.

(** The five errors of the single-event path, each in a run of the double,
    and the dispatch of a notification for a region that is not enabled. *)
Lemma handleNewInstanceLaunch_errors_witness :
  handleNewInstanceLaunch "us-east-1" "i-0456" "pending" (fresh closed_config reachable) =
  (Returned (Some (errors_New "region us-east-1 is not enabled")),
   fresh closed_config reachable) /\
  fst (handleNewInstanceLaunch "us-east-1" "i-9999" "pending" (fresh open_config reachable))
  = Returned (Some (errors_New "InvalidInstanceID.NotFound")) /\
  fst (handleNewInstanceLaunch "us-east-1" vanished "pending" (fresh open_config reachable))
  = Returned (Some (errors_New "instance missing")) /\
  fst (handleNewInstanceLaunch_found pending_instance "pending"
         (started quota open_config reachable))
  = Returned (Some (errors_New "RequestLimitExceeded")) /\
  fst (handleNewInstanceLaunch_found running_instance "running"
         (started quota open_config reachable))
  = Returned (Some (errors_New "RequestLimitExceeded")) /\
  fst (EventHandler (Some state_change_pending) (fresh closed_config reachable))
  = Returned tt.
Proof.
  split; [|split; [|split; [|split; [|split]]]].
  - apply (@handleNewInstanceLaunch_errors elsewhere collaborators
             "us-east-1" "i-0456" "pending" (fresh closed_config reachable)).
    reflexivity.
  - destruct (@handleNewInstanceLaunch_errors elsewhere collaborators
                "us-east-1" "i-9999" "pending" (fresh open_config reachable))
      as [_ [H _]].
    eapply H; [reflexivity|vm_compute; reflexivity].
  - destruct (@handleNewInstanceLaunch_errors elsewhere collaborators
                "us-east-1" vanished "pending" (fresh open_config reachable))
      as [_ [_ [H _]]].
    eapply H; [reflexivity|vm_compute; reflexivity|reflexivity].
  - destruct (@handleNewInstanceLaunch_errors elsewhere collaborators
                "us-east-1" "i-0456" "pending" (started quota open_config reachable))
      as [_ [_ [_ [_ [H _]]]]].
    eapply H; reflexivity.
  - destruct (@handleNewInstanceLaunch_errors elsewhere collaborators
                "us-east-1" "i-0789" "running" (started quota open_config reachable))
      as [_ [_ [_ [_ [_ [H _]]]]]].
    eapply H; reflexivity.
  - destruct (@handleNewInstanceLaunch_errors elsewhere collaborators
                "us-east-1" "i-0456" "pending" (fresh closed_config reachable))
      as [_ [_ [_ [_ [_ [_ H]]]]]].
    assert (E : exists p',
               EventHandler (Some state_change_pending) (fresh closed_config reachable)
               = (Returned tt, p')).
    { eexists.
      eapply (H state_change_pending state_change_pending {| events.Records := None |});
        [vm_compute; reflexivity|reflexivity|vm_compute; reflexivity
        |reflexivity|reflexivity|vm_compute; reflexivity|vm_compute; reflexivity]. }
    destruct E as [p' E]; rewrite E; reflexivity.
Defined.

(** C1 as claimed fails: a payload that is not JSON, bare or as the message
    of the first record of an envelope, fails to parse, and [EventHandler]
    does not come down to a periodic scan on it. *)
Lemma EventHandler_unparseable_no_scan :
  Unmarshal_SNSEvent garbage = json.Failed syntax_error /\
  ~ runs_periodic_scan (Some garbage) (fresh open_config reachable) /\
  Unmarshal_SNSEvent (envelope [garbage])
  = json.Decoded {| events.Records := Some [record_of garbage] |} /\
  Unmarshal_CloudWatchEvent garbage = json.Failed syntax_error /\
  ~ runs_periodic_scan (Some (envelope [garbage])) (fresh open_config reachable).
Proof.
  split; [vm_compute; reflexivity|].
  split.
  { intros [t H].
    apply (f_equal (fun r => world (snd r))) in H.
    vm_compute in H; discriminate. }
  split; [vm_compute; reflexivity|].
  split; [vm_compute; reflexivity|].
  intros [t H].
  apply (f_equal (fun r => world (snd r))) in H.
  vm_compute in H; discriminate.
Qed.

(** C2 as claimed fails: whatever the caller of [EventHandler] does with
    what it is returned, it cannot tell the run in which
    [handleNewInstanceLaunch] returned an error from the one in which it
    returned none. *)
Lemma EventHandler_drops_the_error :
  ~ exists report, single_event_errors_reach_caller report.
Proof.
  intros [report H].
  pose (ev := {| events.DetailType := "EC2 Instance State-change Notification";
                 events.Region := "us-east-1"; events.Detail := detail_pending |}).
  assert (D1 : Unmarshal_SNSEvent state_change_pending
               = json.Decoded {| events.Records := None |}) by (vm_compute; reflexivity).
  assert (D2 : Unmarshal_CloudWatchEvent state_change_pending = json.Decoded ev)
    by (vm_compute; reflexivity).
  assert (D3 : parseEventData ev = (Some "i-0456", Some "pending", None))
    by (vm_compute; reflexivity).
  pose proof (H state_change_pending _ state_change_pending ev "i-0456" "pending"
                (fresh closed_config reachable)
                (Some (errors_New "region us-east-1 is not enabled"))
                D1 eq_refl D2 eq_refl D3) as Hoff.
  pose proof (H state_change_pending _ state_change_pending ev "i-0456" "pending"
                (fresh open_config reachable) None
                D1 eq_refl D2 eq_refl D3) as Hon.
  assert (Eoff : fst (EventHandler (Some state_change_pending) (fresh closed_config reachable))
                 = Returned tt) by (vm_compute; reflexivity).
  assert (Eon : fst (EventHandler (Some state_change_pending) (fresh open_config reachable))
                = Returned tt) by (vm_compute; reflexivity).
  rewrite Eoff in Hoff; rewrite Eon in Hon.
  assert (Roff : report (Returned tt) = Some (errors_New "region us-east-1 is not enabled"))
    by (apply Hoff; vm_compute; reflexivity).
  assert (Ron : report (Returned tt) = None)
    by (apply Hon; vm_compute; reflexivity).
  congruence.
Qed.

End Runs.

(** * Further properties *)

(** ** The periodic scan, when the regions are listed *)

Section Listing.

Context {X : Elsewhere} {C : Collaborators}.

Lemma observed_nothing (p : Process) : observed [] p = p.
Proof. destruct p; unfold observed; simpl; now rewrite app_nil_r. Qed.

Lemma started_workers_app (t1 t2 : list Event) :
  started_workers (t1 ++ t2) = (started_workers t1 ++ started_workers t2)%list.
Proof.
  induction t1 as [|e t1 IH]; [reflexivity|].
  destruct e; simpl; now rewrite IH.
Qed.

Lemma processed_regions_app (t1 t2 : list Event) :
  processed_regions (t1 ++ t2) = (processed_regions t1 ++ processed_regions t2)%list.
Proof.
  induction t1 as [|e t1 IH]; [reflexivity|].
  destruct e; simpl; now rewrite IH.
Qed.

(** The loop of [getRegions] appends the names it keeps, and logs each. *)
Lemma getRegions_range_run (regions : list (option ec2.Region)) :
  forall (output : list string) (p : Process),
    getRegions_range regions output p =
    (Returned (output ++ region_names regions)%list,
     observed (map found_region (region_names regions)) p).
Proof.
  induction regions as [|r rest IH]; intros output p.
  - simpl; now rewrite app_nil_r, observed_nothing.
  - destruct r as [[[regionName|]]|]; simpl; try apply IH.
    unfold bind, Println, emit; simpl.
    rewrite IH, <- app_assoc.
    unfold observed, found_region; simpl.
    now rewrite <- app_assoc.
Qed.

Lemma region_names_In (regions : list (option ec2.Region)) (regionName : string) :
  In regionName (region_names regions) <->
  In (Some {| ec2.RegionName := Some regionName |}) regions.
Proof.
  induction regions as [|r rest IH]; [simpl; tauto|].
  destruct r as [[[n|]]|]; simpl; rewrite IH.
  - split; intros [H|H]; auto; left; congruence.
  - split; [auto|intros [H|H]; [discriminate|assumption]].
  - split; [auto|intros [H|H]; [discriminate|assumption]].
Qed.

(** X1.  When the request answers with an output and no error, [getRegions]
    returns, with no error, the names of the entries that are not nil and
    have a name, in the order of the answer: a name is returned exactly when
    an entry carries it.  It has written one [debug] line per name after
    the answer itself, and the world is as the request left it. *)
Theorem getRegions_names
  (p : Process) (out : ec2.DescribeRegionsOutput) (w' : World) :
  DescribeRegions (mainEC2Conn (self p)) ec2.DescribeRegionsInput_zero (world p)
  = ((Some out, None), w') ->
  getRegions p =
  (Returned (region_names (ec2.Regions out), None),
   {| self := self p;
      world := w';
      trace :=
        trace p ++
        [Log logger (Sprintln ["Scanning for available AWS regions"]);
         Call_DescribeRegions ec2.DescribeRegionsInput_zero;
         Log debug (Sprintln [DescribeRegionsOutput_String out])] ++
        map found_region (region_names (ec2.Regions out)) |}) /\
  forall regionName,
    In regionName (region_names (ec2.Regions out)) <->
    In (Some {| ec2.RegionName := Some regionName |}) (ec2.Regions out).
Proof.
  intro H; split.
  - unfold getRegions; exec; rewrite H; exec.
    rewrite getRegions_range_run; unfold observed; simpl.
    rewrite <- ?app_assoc; reflexivity.
  - intro regionName; apply region_names_In.
Qed.



(** One turn of the loop of [processRegions]. *)
Lemma processRegions_cons (regionName : string) (rest : list string) (p : Process) :
  let r := region_literal (config (self p)) regionName in
  exists t,
    processRegions (regionName :: rest) p =
    processRegions rest
      {| self := self p;
         world := if enabled r then snd (processRegion r (world p)) else world p;
         trace := trace p ++ t |} /\
    started_workers t = [r] /\
    processed_regions t = (if enabled r then [r] else []).
Proof.
  intro r; unfold r, region_literal.
  cbn [processRegions]; unfold regionWorker, bind at 1, get_config at 1; cbv zeta beta iota.
  destruct (enabled _) eqn:En; exec.
  - destruct (processRegion _ (world p)) as [[] w1] eqn:Ep; simpl.
    eexists; split; [rewrite <- ?app_assoc; reflexivity|].
    split; reflexivity.
  - eexists; split; [rewrite <- ?app_assoc; reflexivity|].
    split; reflexivity.
Qed.

Lemma processRegions_workers (regions : list string) (p : Process) :
  let rs := map (region_literal (config (self p))) regions in
  fst (processRegions regions p) = Returned tt /\
  self (snd (processRegions regions p)) = self p /\
  world (snd (processRegions regions p)) = processed_world (filter enabled rs) (world p) /\
  exists t,
    trace (snd (processRegions regions p)) = (trace p ++ t)%list /\
    started_workers t = rs /\
    processed_regions t = filter enabled rs.
Proof.
  revert p; induction regions as [|regionName rest IH]; intro p.
  - simpl; repeat split.
    exists []; simpl; now rewrite app_nil_r.
  - destruct (processRegions_cons regionName rest p) as [t1 [E [S1 P1]]].
    cbv zeta in E; rewrite E; clear E.
    match goal with |- context [processRegions rest ?q] => specialize (IH q) end.
    cbv zeta in IH; simpl self in IH; simpl world in IH; simpl trace in IH.
    destruct IH as [R [Sf [W [t2 [T [S2 P2]]]]]].
    cbv zeta; cbn [map filter].
    split; [exact R|split; [exact Sf|split]].
    + rewrite W; destruct (enabled _); reflexivity.
    + exists (t1 ++ t2)%list.
      rewrite T, app_assoc, started_workers_app, processed_regions_app, S1, S2, P1, P2.
      repeat split.
      destruct (enabled _); reflexivity.
Qed.


Lemma started_workers_found (names : list string) :
  started_workers (map found_region names) = [].
Proof. induction names; simpl; auto. Qed.

Lemma processed_regions_found (names : list string) :
  processed_regions (map found_region names) = [].
Proof. induction names; simpl; auto. Qed.

(** The defaults write the configuration and one [debug] line. *)
Lemma defaulted_shape (p : Process) :
  exists line,
    defaulted p =
    {| self := set_config (config (self (defaulted p))) (self p);
       world := world p;
       trace := trace p ++ [Log debug line] |}.
Proof.
  unfold defaulted.
  destruct (addDefaultFilteringMode_runs p) as [cfg1 [line E1]]; rewrite E1; cbn [snd].
  match goal with
  | |- context [addDefaultFilter ?q] =>
      destruct (addDefaultFilter_runs q) as [cfg2 E2]
  end.
  rewrite E2; exists line; reflexivity.
Qed.

Lemma ProcessCronEvent_defaulted (p : Process) :
  ProcessCronEvent p =
  ('(allRegions, err) <- getRegions ;;
   match err with
   | Some e => Println logger [Error e]
   | None => processRegions allRegions
   end) (defaulted p).
Proof.
  unfold ProcessCronEvent, defaulted.
  destruct (addDefaultFilteringMode_runs p) as [cfg1 [line E1]].
  rewrite (bind_returned _ E1), E1; cbn [snd].
  match goal with
  | |- context [bind addDefaultFilter _ ?q] =>
      destruct (addDefaultFilter_runs q) as [cfg2 E2]
  end.
  rewrite (bind_returned _ E2), E2; reflexivity.
Qed.

(** The default filter expressions are not blank. *)
Lemma default_filters_not_blank :
  ~ blank "spot-enabled=true" /\ ~ blank "spot-enabled=false".
Proof. split; intro H; vm_compute in H; discriminate. Qed.

Lemma defaulted_config (p : Process) :
  let cfg := config (self p) in
  let cfg' := config (self (defaulted p)) in
  normalised cfg' /\
  (normalised cfg -> cfg' = cfg) /\
  (blank (FilterByTags cfg) ->
   (FilterByTags cfg' = "spot-enabled=false" <-> TagFilteringMode cfg' = "opt-out") /\
   (FilterByTags cfg' = "spot-enabled=true" <-> TagFilteringMode cfg' = "opt-in")).
Proof.
  destruct default_filters_not_blank as [Nt Nf].
  destruct p as [[cfg conn] w t]; destruct cfg as [mr rs mode flt act].
  unfold defaulted, addDefaultFilteringMode, addDefaultFilter, normalised, blank in *.
  run.
  destruct (String.eqb_spec mode "opt-out") as [->|E]; simpl;
    destruct (Nat.eqb_spec (len (strings_TrimSpace flt)) 0) as [Hb|Hb]; simpl;
    (split; [split; [auto|assumption]|]);
    (split; [intros [[Hm|Hm] Hf]; unfold set_TagFilteringMode; simpl; congruence|]);
    intro; try contradiction; repeat split; intros; congruence.
Qed.

(** X3.  After the two defaults of [ProcessCronEvent] the configuration is
    normalised: the mode is ["opt-in"] or ["opt-out"] and the filter
    expression is not blank; a default filter agrees with the mode that was
    settled, ["spot-enabled=false"] exactly under ["opt-out"].  A
    configuration that was normalised already is left as it was, so that
    applying the defaults again, as every further periodic scan of the
    process does, changes nothing. *)
Theorem defaults_normalise (p : Process) :
  let cfg := config (self p) in
  let cfg' := config (self (defaulted p)) in
  normalised cfg' /\
  (normalised cfg -> cfg' = cfg) /\
  (blank (FilterByTags cfg) ->
   (FilterByTags cfg' = "spot-enabled=false" <-> TagFilteringMode cfg' = "opt-out") /\
   (FilterByTags cfg' = "spot-enabled=true" <-> TagFilteringMode cfg' = "opt-in")) /\
  config (self (defaulted (defaulted p))) = cfg'.
Proof.
  destruct (defaulted_config p) as [N [K A]].
  cbv zeta; split; [exact N|split; [exact K|split; [exact A|]]].
  destruct (defaulted_config (defaulted p)) as [_ [K' _]]; exact (K' N).
Qed.

(** With the regions listed, [getRegions] after the defaults. *)
Lemma getRegions_defaulted
  (p : Process) (out : ec2.DescribeRegionsOutput) (w' : World) :
  DescribeRegions (mainEC2Conn (self p)) ec2.DescribeRegionsInput_zero (world p)
  = ((Some out, None), w') ->
  exists t,
    getRegions (defaulted p) =
    (Returned (region_names (ec2.Regions out), None),
     {| self := self (defaulted p); world := w'; trace := trace p ++ t |}) /\
    started_workers t = [] /\ processed_regions t = [].
Proof.
  intro H.
  destruct (defaulted_shape p) as [line D].
  assert (G : DescribeRegions (mainEC2Conn (self (defaulted p)))
                ec2.DescribeRegionsInput_zero (world (defaulted p))
              = ((Some out, None), w')) by (rewrite D; exact H).
  unfold getRegions; exec; rewrite G; exec.
  rewrite getRegions_range_run; unfold observed; cbn [self world trace].
  replace (trace (defaulted p)) with (trace p ++ [Log debug line])%list
    by (rewrite D; reflexivity).
  eexists; split; [rewrite <- ?app_assoc; reflexivity|].
  cbn [app started_workers processed_regions].
  now rewrite started_workers_found, processed_regions_found.
Qed.


(** X5.  The periodic scan panics in one case only, on the dereference of
    [resp], when the request answers with neither an output nor an error;
    no worker has been started then.  In every other case it returns. *)
Theorem ProcessCronEvent_panics (p : Process) :
  let answer :=
    fst (DescribeRegions (mainEC2Conn (self p)) ec2.DescribeRegionsInput_zero (world p)) in
  (answer = (None, None) ->
   fst (ProcessCronEvent p) = Panicked nil_dereference /\
   exists t,
     trace (snd (ProcessCronEvent p)) = (trace p ++ t)%list /\
     started_workers t = []) /\
  (answer <> (None, None) -> fst (ProcessCronEvent p) = Returned tt).
Proof.
  intro answer; subst answer.
  destruct (DescribeRegions (mainEC2Conn (self p)) ec2.DescribeRegionsInput_zero (world p))
    as [[resp err] w'] eqn:H; cbn [fst].
  rewrite ProcessCronEvent_defaulted.
  split.
  - intro A; injection A as -> ->.
    destruct (defaulted_shape p) as [line D]; rewrite D.
    unfold getRegions; exec; rewrite H; exec.
    split; [reflexivity|].
    eexists; split; [rewrite <- ?app_assoc; reflexivity|reflexivity].
  - intro A.
    destruct err as [e|].
    + destruct (defaulted_shape p) as [line D]; rewrite D.
      unfold getRegions; exec; rewrite H; reflexivity.
    + destruct resp as [out|]; [|congruence].
      destruct (getRegions_defaulted p H) as [t1 [G _]].
      rewrite (bind_returned _ G).
      apply processRegions_workers.
Qed.

End Listing.

(** ** Notifications *)

Section Confined.

Context {X : Elsewhere}.

Variable ok : Event -> bool.

Lemma confined_ret {A : Type} (v : A) : confined ok (ret v).
Proof. intro p; split; [reflexivity|exists []; simpl; now rewrite app_nil_r]. Qed.

Lemma confined_panic {A : Type} (reason : string) : confined ok (@panic _ A reason).
Proof. intro p; split; [reflexivity|exists []; simpl; now rewrite app_nil_r]. Qed.

Lemma confined_bind {A B : Type} (m : M A) (k : A -> M B) :
  confined ok m -> (forall v, confined ok (k v)) -> confined ok (bind m k).
Proof.
  intros Hm Hk p; unfold bind.
  destruct (Hm p) as [S1 [t1 [E1 F1]]].
  destruct (m p) as [[v|reason] p1]; simpl in S1, E1.
  - destruct (Hk v p1) as [S2 [t2 [E2 F2]]].
    split; [congruence|].
    exists (t1 ++ t2)%list; split.
    + now rewrite E2, E1, app_assoc.
    + now rewrite forallb_app, F1, F2.
  - split; [assumption|now exists t1].
Qed.

Lemma confined_emit (e : Event) : ok e = true -> confined ok (emit e).
Proof. intros He p; split; [reflexivity|exists [e]; simpl; now rewrite He]. Qed.

Lemma confined_extern {A : Type} (e : Event) (f : IO A) :
  ok e = true -> confined ok (extern e f).
Proof.
  intros He p; unfold extern.
  destruct (f (world p)); split; [reflexivity|exists [e]; simpl; now rewrite He].
Qed.

Lemma confined_get_config : confined ok get_config.
Proof. intro p; split; [reflexivity|exists []; simpl; now rewrite app_nil_r]. Qed.

Lemma confined_deref {A : Type} (ptr : option A) : confined ok (deref ptr).
Proof. destruct ptr; [apply confined_ret|apply confined_panic]. Qed.

Lemma confined_Println (l : Logger) (operands : list string) :
  (forall line, ok (Log l line) = true) -> confined ok (Println l operands).
Proof. intro H; apply confined_emit, H. Qed.

Lemma confined_Printf (l : Logger) (format : string) (operands : list string) :
  (forall line, ok (Log l line) = true) -> confined ok (Printf l format operands).
Proof. intro H; apply confined_emit, H. Qed.

End Confined.

(** Splits a goal [confined ok m] along the structure of [m]. *)
Ltac confine_step :=
  first
    [ apply confined_ret
    | apply confined_panic
    | apply confined_get_config
    | apply confined_deref
    | apply confined_Println; intros; reflexivity
    | apply confined_Printf; intros; reflexivity
    | apply confined_emit; reflexivity
    | apply confined_extern; reflexivity
    | apply confined_bind; [|intros]
    | match goal with
      | |- confined _ (if ?b then _ else _) => destruct b
      | |- confined _ (match ?x with _ => _ end) => destruct x
      | |- confined _ (let '(_, _) := ?x in _) => destruct x
      end ].

Ltac confine := repeat confine_step.

Section Notifications.

Context {X : Elsewhere} {C : Collaborators}.

Lemma handleNewInstanceLaunch_confined (regionName instanceID state : string) :
  confined (fun e => negb (is_scan e))
    (handleNewInstanceLaunch regionName instanceID state).
Proof.
  unfold handleNewInstanceLaunch, handleNewInstanceLaunch_scan,
    handleNewInstanceLaunch_found, handleNewInstanceLaunch_running.
  confine.
Qed.

(** X6.  A notification of one of the two recognised types, whatever it
    holds, never enumerates the regions, never starts a region worker and
    leaves the configuration as it was: the defaults of the periodic scan
    are not applied on these paths. *)
Theorem EventHandler_dispatch_confined (ev : events.CloudWatchEvent) (p : Process) :
  events.DetailType ev = "EC2 Spot Instance Interruption Warning" \/
  events.DetailType ev = "EC2 Instance State-change Notification" ->
  self (snd (EventHandler_dispatch ev p)) = self p /\
  exists t,
    trace (snd (EventHandler_dispatch ev p)) = (trace p ++ t)%list /\
    existsb is_scan t = false.
Proof.
  intro H.
  assert (K : confined (fun e => negb (is_scan e)) (EventHandler_dispatch ev)).
  { unfold EventHandler_dispatch.
    destruct H as [H|H]; rewrite H; simpl.
    - confine.
    - repeat first [apply handleNewInstanceLaunch_confined|confine_step]. }
  destruct (K p) as [S [t [T F]]].
  split; [exact S|exists t; split; [exact T|]].
  clear T; induction t as [|e t IH]; simpl in *; [reflexivity|].
  apply andb_true_iff in F as [Fe Ft].
  apply negb_true_iff in Fe; rewrite Fe; auto.
Qed.

(** X7.  On a spot interruption warning: when the identifier of the
    instance cannot be had, [EventHandler] logs the error and returns,
    having called nothing; when there is no identifier and no error it
    returns in silence; when there is an identifier it builds one
    termination handler for the region of the event and executes once the
    action the configuration names, on that instance, and nothing else. *)
Theorem EventHandler_interruption
  (payload inner : json.RawMessage) (snsEvent : events.SNSEvent)
  (ev : events.CloudWatchEvent) (p : Process) :
  Unmarshal_SNSEvent payload = json.Decoded snsEvent ->
  unwrapped payload snsEvent = Some inner ->
  Unmarshal_CloudWatchEvent inner = json.Decoded ev ->
  events.DetailType ev = "EC2 Spot Instance Interruption Warning" ->
  let q := observed (classification payload inner ++ [triggered_by ev]) p in
  (forall instanceID e,
     getInstanceIDDueForTermination ev = (instanceID, Some e) ->
     EventHandler (Some payload) p =
     (Returned tt,
      observed
        [Log stdlog
           (Sprintln ["Could't get instance ID of terminating spot instance"; Error e])]
        q)) /\
  (getInstanceIDDueForTermination ev = (None, None) ->
   EventHandler (Some payload) p = (Returned tt, q)) /\
  (forall instanceID,
     getInstanceIDDueForTermination ev = (Some instanceID, None) ->
     let action := TerminationNotificationAction (config (self p)) in
     let handler := newSpotTermination (events.Region ev) (world p) in
     EventHandler (Some payload) p =
     (Returned tt,
      {| self := self p;
         world := snd (executeAction (fst handler) instanceID action (snd handler));
         trace :=
           trace q ++
           [Call_newSpotTermination (events.Region ev);
            Call_executeAction instanceID action] |})).
Proof.
  intros H1 H2 H3 H4 q.
  rewrite (EventHandler_classified _ _ H1 H2 H3).
  unfold EventHandler_dispatch; rewrite H4.
  cbn -[Sprintln classification].
  assert (Q : observed [Log stdlog
                          (Sprintln ["Triggered by";
                                     "EC2 Spot Instance Interruption Warning"])]
                (observed (classification payload inner) p) = q).
  { unfold q, triggered_by; rewrite H4, observed_observed; reflexivity. }
  split; [|split].
  - intros instanceID e G; rewrite G; exec.
    rewrite <- Q; unfold observed; cbn -[Sprintln classification]; reflexivity.
  - intro G; rewrite G; exec.
    rewrite <- Q; unfold observed; cbn -[Sprintln classification]; reflexivity.
  - intros instanceID G; rewrite G; exec.
    destruct (newSpotTermination (events.Region ev) (world p)) as [st w1].
    cbn -[Sprintln classification].
    destruct (executeAction st instanceID _ w1) as [[] w2].
    clear Q; subst q; unfold observed, triggered_by; rewrite ?H4.
    cbn -[Sprintln classification].
    rewrite <- ?app_assoc; reflexivity.
Qed.

(** X8.  On a state-change notification whose data cannot be read,
    [handleNewInstanceLaunch] is not called: with an error [EventHandler]
    logs it and returns, with no identifier and no error it returns in
    silence, and with an identifier, no state and no error it panics on the
    dereference of the state, before anything is asked of the region. *)
Theorem EventHandler_state_change_unread
  (payload inner : json.RawMessage) (snsEvent : events.SNSEvent)
  (ev : events.CloudWatchEvent) (p : Process) :
  Unmarshal_SNSEvent payload = json.Decoded snsEvent ->
  unwrapped payload snsEvent = Some inner ->
  Unmarshal_CloudWatchEvent inner = json.Decoded ev ->
  events.DetailType ev = "EC2 Instance State-change Notification" ->
  let q := observed (classification payload inner ++ [triggered_by ev]) p in
  (forall instanceID state e,
     parseEventData ev = (instanceID, state, Some e) ->
     EventHandler (Some payload) p =
     (Returned tt,
      observed
        [Log stdlog
           (Sprintln ["Could't get instance ID of newly launched instance"; Error e])]
        q)) /\
  (forall state,
     parseEventData ev = (None, state, None) ->
     EventHandler (Some payload) p = (Returned tt, q)) /\
  (forall instanceID,
     parseEventData ev = (Some instanceID, None, None) ->
     EventHandler (Some payload) p = (Panicked nil_dereference, q)).
Proof.
  intros H1 H2 H3 H4 q.
  rewrite (EventHandler_classified _ _ H1 H2 H3).
  unfold EventHandler_dispatch; rewrite H4.
  cbn -[Sprintln classification handleNewInstanceLaunch].
  assert (Q : observed [Log stdlog
                          (Sprintln ["Triggered by";
                                     "EC2 Instance State-change Notification"])]
                (observed (classification payload inner) p) = q).
  { unfold q, triggered_by; rewrite H4, observed_observed; reflexivity. }
  split; [|split].
  - intros instanceID state e G; rewrite G; exec.
    rewrite <- Q; unfold observed; cbn -[Sprintln classification]; reflexivity.
  - intros state G; rewrite G; exec.
    rewrite <- Q; unfold observed; cbn -[Sprintln classification]; reflexivity.
  - intros instanceID G; rewrite G; exec.
    rewrite <- Q; unfold observed; cbn -[Sprintln classification]; reflexivity.
Qed.

(** What [handleNewInstanceLaunch] does with the instance it has found, as
    calls: none, one launch or one swap. *)
Lemma handleNewInstanceLaunch_found_calls (i : instance) (state : string) (p : Process) :
  exists t,
    trace (snd (handleNewInstanceLaunch_found i state p)) = (trace p ++ t)%list /\
    (calls t = [] \/
     (calls t = [Call_launchSpotReplacement i] /\ state = "pending") \/
     (calls t = [Call_swapWithGroupMember i] /\ state = "running")).
Proof.
  unfold handleNewInstanceLaunch_found, handleNewInstanceLaunch_running.
  destruct (InstanceId i) as [id|]; [|exists []; simpl; rewrite app_nil_r; auto].
  destruct (State i) as [[[stateName|]]|];
    try (exists []; simpl; rewrite app_nil_r; auto; fail).
  exec.
  destruct (String.eqb_spec state "pending") as [Ep|Ep];
    destruct (String.eqb_spec state "running") as [Er|Er];
    try (exfalso; congruence);
    destruct (belongsToEnabledASG i);
    destruct (shouldBeReplacedWithSpot i);
    destruct (isUnattachedSpotInstanceLaunchedForAnEnabledASG i);
    exec;
    repeat match goal with
    | |- context [launchSpotReplacement ?j ?w] =>
        destruct (launchSpotReplacement j w) as [[?|] ?]; exec
    | |- context [swapWithGroupMember ?j ?w] =>
        destruct (swapWithGroupMember j w) as [[?|] ?]; exec
    end;
    (eexists; split;
     [ cbn -[Sprintf Sprintln String.append]; rewrite <- ?app_assoc; reflexivity
     | cbn -[Sprintf Sprintln String.append]; auto ]).
Qed.

Lemma calls_app (t1 t2 : list Event) : calls (t1 ++ t2) = (calls t1 ++ calls t2)%list.
Proof. apply filter_app. Qed.

(** X9.  For a region that is not enabled [handleNewInstanceLaunch] leaves
    the process as it was.  For one that is enabled its calls are, in this
    order, the connection, the set-up of the group filters, the scan of the
    groups, the instance-type information and the scan of the instance,
    followed by at most one action: a launch, in state ["pending"] only, or
    a swap, in state ["running"] only. *)
Theorem handleNewInstanceLaunch_calls
  (regionName instanceID state : string) (p : Process) :
  let r0 := region_literal (config (self p)) regionName in
  let result := handleNewInstanceLaunch regionName instanceID state p in
  (enabled r0 = false -> snd result = p) /\
  (enabled r0 = true ->
   exists t r1 r2 r3 r4 acts,
     trace (snd result) = (trace p ++ t)%list /\
     calls t =
     ([Call_connect regionName;
       Call_setupAsgFilters r1;
       Call_scanForEnabledAutoScalingGroups r2;
       Call_determineInstanceTypeInformation r3;
       Call_scanInstance r4 instanceID] ++ acts)%list /\
     (acts = [] \/
      (exists i, acts = [Call_launchSpotReplacement i] /\ state = "pending") \/
      (exists i, acts = [Call_swapWithGroupMember i] /\ state = "running"))).
Proof.
  intros r0 result; subst result r0; unfold region_literal.
  split; intro En.
  { unfold handleNewInstanceLaunch, bind, get_config; cbv beta iota zeta.
    rewrite En; reflexivity. }
  unfold handleNewInstanceLaunch, handleNewInstanceLaunch_scan.
  unfold bind, get_config, extern, Println, Printf, emit, ret.
  cbv beta iota zeta; rewrite En.
  cbn -[Sprintf Sprintln String.append handleNewInstanceLaunch_found].
  destruct (connect regionName _ (world p)) as [r1 w1].
  cbn -[Sprintf Sprintln String.append handleNewInstanceLaunch_found].
  destruct (setupAsgFilters r1 w1) as [r2 w2].
  cbn -[Sprintf Sprintln String.append handleNewInstanceLaunch_found].
  destruct (scanForEnabledAutoScalingGroups r2 w2) as [r3 w3].
  cbn -[Sprintf Sprintln String.append handleNewInstanceLaunch_found].
  destruct (determineInstanceTypeInformation (conf r3) r3 w3) as [r4 w4].
  cbn -[Sprintf Sprintln String.append handleNewInstanceLaunch_found].
  destruct (scanInstance r4 instanceID w4) as [[r5 [e|]] w5];
    cbn -[Sprintf Sprintln String.append handleNewInstanceLaunch_found].
  - eexists; exists r1, r2, r3, r4, (@nil Event).
    split; [rewrite <- ?app_assoc; reflexivity|split; [reflexivity|auto]].
  - destruct (instances_get r5 instanceID) as [i|];
      cbn -[Sprintf Sprintln String.append handleNewInstanceLaunch_found].
    + match goal with
      | |- context [handleNewInstanceLaunch_found i state ?q] =>
          destruct (handleNewInstanceLaunch_found_calls i state q) as [t [T D]]
      end.
      rewrite T; cbn [trace].
      eexists; exists r1, r2, r3, r4; eexists.
      split; [rewrite <- ?app_assoc; reflexivity|].
      cbn [app]; unfold calls at 1; cbn [filter is_log negb]; fold (calls t).
      split; [reflexivity|].
      destruct D as [D|[[D S]|[D S]]]; rewrite D; eauto.
    + eexists; exists r1, r2, r3, r4, (@nil Event).
      split; [rewrite <- ?app_assoc; reflexivity|split; [reflexivity|auto]].
Qed.

(** X10.  An error that [handleNewInstanceLaunch] returns for an instance
    it has found is the error of the action it has just called: of the
    launch, in state ["pending"] with both predicates true, or of the swap,
    in state ["running"] for an instance not yet attached. *)
Theorem handleNewInstanceLaunch_found_error
  (i : instance) (state : string) (p : Process) (e : error) :
  fst (handleNewInstanceLaunch_found i state p) = Returned (Some e) ->
  (state = "pending" /\ belongsToEnabledASG i = true /\
   shouldBeReplacedWithSpot i = true /\
   fst (launchSpotReplacement i (world p)) = Some e) \/
  (state = "running" /\
   isUnattachedSpotInstanceLaunchedForAnEnabledASG i = true /\
   fst (swapWithGroupMember i (world p)) = Some e).
Proof.
  unfold handleNewInstanceLaunch_found, handleNewInstanceLaunch_running.
  destruct (InstanceId i) as [id|]; [|discriminate].
  destruct (State i) as [[[stateName|]]|]; try discriminate.
  exec.
  destruct (String.eqb_spec state "pending") as [Ep|Ep];
    destruct (String.eqb_spec state "running") as [Er|Er];
    try (exfalso; congruence);
    destruct (belongsToEnabledASG i);
    destruct (shouldBeReplacedWithSpot i);
    destruct (isUnattachedSpotInstanceLaunchedForAnEnabledASG i);
    exec;
    repeat match goal with
    | |- context [launchSpotReplacement ?j ?w] =>
        destruct (launchSpotReplacement j w) as [[?|] ?] eqn:?; exec
    | |- context [swapWithGroupMember ?j ?w] =>
        destruct (swapWithGroupMember j w) as [[?|] ?] eqn:?; exec
    end;
    intro H; try discriminate; injection H as <-; auto.
Qed.

End Notifications.

(** ** Bare and wrapped delivery *)

Section Blind.

Context {X : Elsewhere}.

Lemma rebase_rebase {A : Type} (t1 t2 : list Event) (r : Outcome A * Process) :
  rebase t1 (rebase t2 r) = rebase (t1 ++ t2) r.
Proof. unfold rebase; simpl; now rewrite app_assoc. Qed.

Lemma trace_blind_ret {A : Type} (v : A) : trace_blind (ret v).
Proof. intros [a w t]; unfold rebase; simpl; now rewrite app_nil_r. Qed.

Lemma trace_blind_panic {A : Type} (reason : string) : trace_blind (@panic _ A reason).
Proof. intros [a w t]; unfold rebase; simpl; now rewrite app_nil_r. Qed.

Lemma trace_blind_bind {A B : Type} (m : M A) (k : A -> M B) :
  trace_blind m -> (forall v, trace_blind (k v)) -> trace_blind (bind m k).
Proof.
  intros Hm Hk p; unfold bind.
  rewrite (Hm p).
  destruct (m (from_scratch p)) as [[v|reason] p1]; unfold rebase at 1; cbn [fst snd].
  - rewrite (Hk v), (Hk v p1).
    unfold from_scratch at 1; cbn [self world trace].
    fold (from_scratch p1).
    now rewrite rebase_rebase.
  - reflexivity.
Qed.

Lemma trace_blind_emit (e : Event) : trace_blind (emit e).
Proof. intro p; reflexivity. Qed.

Lemma trace_blind_extern {A : Type} (e : Event) (f : IO A) : trace_blind (extern e f).
Proof. intro p; unfold extern; simpl; destruct (f (world p)); reflexivity. Qed.

Lemma trace_blind_get_config : trace_blind get_config.
Proof. intros [a w t]; unfold rebase; simpl; now rewrite app_nil_r. Qed.

Lemma trace_blind_put_config (cfg : Config) : trace_blind (put_config cfg).
Proof. intros [a w t]; unfold rebase; simpl; now rewrite app_nil_r. Qed.

Lemma trace_blind_get_mainEC2Conn : trace_blind get_mainEC2Conn.
Proof. intros [a w t]; unfold rebase; simpl; now rewrite app_nil_r. Qed.

Lemma trace_blind_deref {A : Type} (ptr : option A) : trace_blind (deref ptr).
Proof. destruct ptr; [apply trace_blind_ret|apply trace_blind_panic]. Qed.

End Blind.

(** Splits a goal [trace_blind m] along the structure of [m]. *)
Ltac blind_step :=
  first
    [ apply trace_blind_ret
    | apply trace_blind_panic
    | apply trace_blind_get_config
    | apply trace_blind_put_config
    | apply trace_blind_get_mainEC2Conn
    | apply trace_blind_deref
    | apply trace_blind_emit
    | apply trace_blind_extern
    | apply trace_blind_bind; [|intros]
    | match goal with
      | |- trace_blind (if ?b then _ else _) => destruct b
      | |- trace_blind (match ?x with _ => _ end) => destruct x
      | |- trace_blind (let '(_, _) := ?x in _) => destruct x
      end ].

Section Delivery.

Context {X : Elsewhere} {C : Collaborators}.

Lemma getRegions_range_blind (regions : list (option ec2.Region)) :
  forall output, trace_blind (getRegions_range regions output).
Proof.
  induction regions as [|r rest IH]; intro output; simpl.
  - apply trace_blind_ret.
  - destruct r as [[[regionName|]]|]; auto.
    apply trace_blind_bind; [apply trace_blind_emit|auto].
Qed.

Lemma processRegions_blind (regions : list string) :
  trace_blind (processRegions regions).
Proof.
  induction regions as [|r rest IH]; simpl.
  - apply trace_blind_ret.
  - unfold regionWorker, Println, Printf.
    repeat first [exact IH|blind_step].
Qed.

Lemma ProcessCronEvent_blind : trace_blind ProcessCronEvent.
Proof.
  unfold ProcessCronEvent, addDefaultFilteringMode, addDefaultFilter, getRegions,
    Println, Printf.
  repeat first [apply getRegions_range_blind|apply processRegions_blind|blind_step].
Qed.

Lemma handleNewInstanceLaunch_blind (regionName instanceID state : string) :
  trace_blind (handleNewInstanceLaunch regionName instanceID state).
Proof.
  unfold handleNewInstanceLaunch, handleNewInstanceLaunch_scan,
    handleNewInstanceLaunch_found, handleNewInstanceLaunch_running, Println, Printf.
  repeat blind_step.
Qed.

Lemma EventHandler_parse_blind (inner : json.RawMessage) :
  trace_blind (EventHandler_parse inner).
Proof.
  unfold EventHandler_parse, EventHandler_dispatch, Println, Printf.
  repeat first
    [ apply ProcessCronEvent_blind
    | apply handleNewInstanceLaunch_blind
    | blind_step ].
Qed.

(** X11.  A lifecycle event is handled the same whether it is delivered
    bare or as the message of the first record of an envelope: the outcome,
    the configuration and the world are the same, and so is the trace past
    the first log line and the first parse. *)
Theorem EventHandler_wrapped_as_bare
  (payload : json.RawMessage) (snsRecord : events.SNSEventRecord)
  (rest : list events.SNSEventRecord) (p : Process) :
  let message := events.Message (events.SNS snsRecord) in
  Unmarshal_SNSEvent payload
  = json.Decoded {| events.Records := Some (snsRecord :: rest) |} ->
  Unmarshal_SNSEvent message = json.Decoded {| events.Records := None |} ->
  same_but_trace (EventHandler (Some payload) p) (EventHandler (Some message) p) /\
  exists t,
    trace (snd (EventHandler (Some payload) p)) = (trace p ++ received payload ++ t)%list /\
    trace (snd (EventHandler (Some message) p)) = (trace p ++ received message ++ t)%list.
Proof.
  intros message Hw Hb.
  rewrite !EventHandler_present, Hw, Hb; cbv zeta; unfold unwrapped; cbn [events.Records].
  fold message; fold (received payload); fold (received message).
  rewrite (EventHandler_parse_blind message (observed (received payload) p)).
  rewrite (EventHandler_parse_blind message (observed (received message) p)).
  change (from_scratch (observed (received payload) p)) with (from_scratch p).
  change (from_scratch (observed (received message) p)) with (from_scratch p).
  destruct (EventHandler_parse message (from_scratch p)) as [o p1].
  unfold same_but_trace, rebase, observed; cbn [fst snd self world trace].
  repeat split.
  exists (trace p1); split; now rewrite <- app_assoc.
Qed.

End Delivery.

(** ** Further runs on the test double *)

Section MoreRuns.

#[local] Existing Instance Double.elsewhere.
#[local] Existing Instance Double.collaborators.

Import Double Fixtures.

(** The account lists two regions among four entries. *)
Lemma getRegions_names_witness :
  fst (getRegions (fresh open_config reachable))
  = Returned (["us-east-1"; "eu-west-1"], None) /\
  world (snd (getRegions (fresh open_config reachable))) = 1.
Proof.
  destruct (@getRegions_names elsewhere collaborators (fresh open_config reachable)
              {| ec2.Regions :=
                   [ Some {| ec2.RegionName := Some "us-east-1" |};
                     None;
                     Some {| ec2.RegionName := None |};
                     Some {| ec2.RegionName := Some "eu-west-1" |} ] |}
              1 eq_refl) as [E _].
  rewrite E; split; reflexivity.
Defined.


(** A configuration left to the defaults, and one that needs none. *)
Lemma defaults_normalise_witness :
  config (self (defaulted (fresh settled_config reachable))) = settled_config /\
  (FilterByTags (config (self (defaulted (fresh open_config reachable))))
   = "spot-enabled=true" <->
   TagFilteringMode (config (self (defaulted (fresh open_config reachable)))) = "opt-in").
Proof.
  split.
  - destruct (@defaults_normalise elsewhere collaborators (fresh settled_config reachable))
      as [_ [K _]].
    apply K.
    split; [left; reflexivity|intro H; vm_compute in H; discriminate].
  - destruct (@defaults_normalise elsewhere collaborators (fresh open_config reachable))
      as [_ [_ [A _]]].
    apply A; reflexivity.
Defined.


(** A connection that answers nothing, and one that lists the regions. *)
Lemma ProcessCronEvent_panics_witness :
  fst (ProcessCronEvent (fresh open_config silent)) = Panicked nil_dereference /\
  fst (ProcessCronEvent (fresh open_config reachable)) = Returned tt.
Proof.
  split.
  - apply (@ProcessCronEvent_panics elsewhere collaborators (fresh open_config silent)).
    reflexivity.
  - apply (@ProcessCronEvent_panics elsewhere collaborators (fresh open_config reachable)).
    simpl; discriminate.
Defined.

(** The two notifications of the double leave the configuration alone. *)
Lemma EventHandler_dispatch_confined_witness :
  self (snd (EventHandler_dispatch decoded_interruption (fresh open_config reachable)))
  = self (fresh open_config reachable) /\
  self (snd (EventHandler_dispatch decoded_state_change (fresh open_config reachable)))
  = self (fresh open_config reachable).
Proof.
  split.
  - apply (@EventHandler_dispatch_confined elsewhere collaborators decoded_interruption).
    left; reflexivity.
  - apply (@EventHandler_dispatch_confined elsewhere collaborators decoded_state_change).
    right; reflexivity.
Defined.

(** The interruption warning of the double, wrapped in an envelope. *)
Lemma EventHandler_interruption_witness :
  fst (EventHandler (Some (envelope [interruption])) (fresh open_config reachable))
  = Returned tt /\
  world (snd (EventHandler (Some (envelope [interruption])) (fresh open_config reachable)))
  = 2.
Proof.
  destruct (@EventHandler_interruption elsewhere collaborators
              (envelope [interruption]) interruption
              {| events.Records := Some [record_of interruption] |}
              decoded_interruption (fresh open_config reachable)
              ltac:(vm_compute; reflexivity) eq_refl ltac:(vm_compute; reflexivity)
              eq_refl) as [_ [_ H]].
  pose proof (H "i-0123" ltac:(vm_compute; reflexivity)) as E.
  rewrite E; split; reflexivity.
Defined.

(** A state-change notification whose data hold no state. *)
Lemma EventHandler_state_change_unread_witness :
  fst (@EventHandler elsewhere stateless (Some state_change_pending)
         (fresh open_config reachable))
  = Panicked nil_dereference /\
  world (snd (@EventHandler elsewhere stateless (Some state_change_pending)
                (fresh open_config reachable)))
  = 0.
Proof.
  destruct (@EventHandler_state_change_unread elsewhere stateless
              state_change_pending state_change_pending
              {| events.Records := None |}
              decoded_state_change (fresh open_config reachable)
              ltac:(vm_compute; reflexivity) eq_refl ltac:(vm_compute; reflexivity)
              eq_refl) as [_ [_ H]].
  pose proof (H "i-0456" eq_refl) as E.
  rewrite E; split; reflexivity.
Defined.

(** The pending instance in a region that is enabled, then in one that is
    not. *)
Lemma handleNewInstanceLaunch_calls_witness :
  (exists t,
     trace (snd (handleNewInstanceLaunch "us-east-1" "i-0456" "pending"
                   (fresh open_config reachable))) = t /\
     length (calls t) = 6) /\
  snd (handleNewInstanceLaunch "us-east-1" "i-0456" "pending" (fresh closed_config reachable))
  = fresh closed_config reachable.
Proof.
  split.
  - destruct (@handleNewInstanceLaunch_calls elsewhere collaborators
                "us-east-1" "i-0456" "pending" (fresh open_config reachable))
      as [_ H].
    destruct (H eq_refl) as [t [r1 [r2 [r3 [r4 [acts [T _]]]]]]].
    exists t; split; [exact T|].
    vm_compute in T; subst t; reflexivity.
  - apply (@handleNewInstanceLaunch_calls elsewhere collaborators
             "us-east-1" "i-0456" "pending" (fresh closed_config reachable)).
    reflexivity.
Defined.

(** A launch refused by the account. *)
Lemma handleNewInstanceLaunch_found_error_witness :
  fst (launchSpotReplacement pending_instance quota)
  = Some (errors_New "RequestLimitExceeded").
Proof.
  destruct (@handleNewInstanceLaunch_found_error elsewhere collaborators
              pending_instance "pending" (started quota open_config reachable)
              (errors_New "RequestLimitExceeded") eq_refl) as [[_ [_ [_ H]]]|[H _]].
  - exact H.
  - discriminate H.
Defined.

(** A scheduled event, bare and in front of another record. *)
Lemma EventHandler_wrapped_as_bare_witness :
  same_but_trace
    (EventHandler (Some (envelope [scheduled; state_change_pending]))
       (fresh open_config reachable))
    (EventHandler (Some scheduled) (fresh open_config reachable)).
Proof.
  apply (@EventHandler_wrapped_as_bare elsewhere collaborators
           (envelope [scheduled; state_change_pending])
           (record_of scheduled) [record_of state_change_pending]).
  - vm_compute; reflexivity.
  - vm_compute; reflexivity.
Defined.

End MoreRuns.
